(** * caniusepypy.pypi: a shallow embedding and its properties

    The module [caniusepypy/pypi.py] is modelled function by function.

    - A Python [str] is a sequence of Unicode code points, [list N]; a
      [bytes] value is a sequence of octets, also [list N].
    - The interpreter's Unicode tables ([str.isalnum], which decides the
      regular expression class [\w], and [str.lower]) are not part of the
      module.  The development is generic in them (class [Unicode]); the
      instance [latin] gives them on U+0000..U+017F and U+0300..U+036F for
      the concrete evaluations.
    - The package index is a read-only environment [PyPI]: what every remote
      call answers.  Remote calls either return or raise.
    - Logging and the executor are effects: a function of the module is a
      computation in the monad [M], which threads the list of emitted events
      and an exception-or-value result.

    The module runs on Python 2 and 3; the model follows Python 3, where a
    [str] pattern matches [\w] by the Unicode tables and [map] is the lazy
    builtin.  *)

From Stdlib Require Import Ascii String.
From stdpp Require Import base list gmap sets sorting pretty.

Open Scope N_scope.

(** ** Strings *)

Abbreviation str := (list N).

(** A literal of the source, as code points. *)
Fixpoint lit (s : string) : str :=
  match s with
  | EmptyString => []
  | String a s' => N_of_ascii a :: lit s'
  end.

(** ** Exceptions

    The classes the module raises, lets through or catches.  The
    specification calls the failure of [just_name] [MalformedNameError] (in
    the code: the [AttributeError] of [None.group]) and the failure of
    [pypy_classifiers] [RemoteFetchError] (in the code: [ValueError]). *)
Inductive exn : Type :=
| AttributeError
| TypeError
| ValueError (msg : str)
| UnicodeDecodeError
| ExpatError
| Fault
| KeyError
| ProtocolError
| OSError.

Global Instance exn_eq_dec : EqDecision exn.
Proof. solve_decision. Defined.

(** ** The interpreter's Unicode tables *)

Class Unicode : Type := {
  (** [chr(c).isalnum()] *)
  isalnum : N → bool;
  (** [s.lower()]; on whole strings, since the lowering of U+03A3 depends on
      its context. *)
  str_lower : str → str;
  (** lowering twice is lowering once *)
  str_lower_idem : ∀ s, str_lower (str_lower s) = str_lower s;
  (** lowering deletes no character *)
  str_lower_nil : ∀ s, str_lower s = [] → s = []
}.

(** ** Regular expressions: the fragment [PROJECT_NAME] uses *)

Inductive class_item : Type :=
| CWord               (* \w *)
| CChar (c : N).      (* a literal character *)

Inductive pattern : Type :=
| OneOrMore (cls : list class_item).   (* [...]+ *)

Section Regex.
Context {U : Unicode}.

Definition item_matches (c : N) (i : class_item) : bool :=
  match i with
  | CWord => isalnum c || (c =? 95)
  | CChar d => c =? d
  end.

Definition class_matches (cls : list class_item) (c : N) : bool :=
  existsb (item_matches c) cls.

(** The greedy repetition: the characters consumed and the rest. *)
Fixpoint consume (cls : list class_item) (s : str) : str * str :=
  match s with
  | [] => ([], [])
  | c :: s' =>
      if class_matches cls c
      then let '(g, r) := consume cls s' in (c :: g, r)
      else ([], s)
  end.

(** [pat.match(s)]: group 0 of a match anchored at position zero, or
    [None]. *)
Definition re_match (pat : pattern) (s : str) : option str :=
  match pat with
  | OneOrMore cls =>
      match consume cls s with
      | ([], _) => None
      | (g, _) => Some g
      end
  end.

(** [PROJECT_NAME = re.compile(r'[\w.-]+')] *)
Definition PROJECT_NAME : pattern :=
  OneOrMore [CWord; CChar 46; CChar 45].

(** [just_name]: [PROJECT_NAME.match(supposed_name).group(0).lower()];
    [.group] on [None] raises [AttributeError]. *)
Definition just_name (supposed_name : str) : exn + str :=
  match re_match PROJECT_NAME supposed_name with
  | None => inl AttributeError
  | Some g => inr (str_lower g)
  end.

End Regex.

(** ** String and bytes operations of the interpreter *)

(** [s.startswith(prefix)] *)
Fixpoint startswith (s prefix : str) {struct prefix} : bool :=
  match prefix, s with
  | [], _ => true
  | _ :: _, [] => false
  | p :: prefix', c :: s' => (c =? p) && startswith s' prefix'
  end.

(** [sub in s] *)
Fixpoint contains (sub s : str) : bool :=
  startswith s sub
  || match s with
     | [] => false
     | _ :: s' => contains sub s'
     end.

(** The line boundaries of [str.splitlines]: LF, VT, FF, CR, FS, GS, RS,
    NEL, LS and PS. *)
Definition is_linebreak (c : N) : bool :=
  (c =? 10) || (c =? 11) || (c =? 12) || (c =? 13) || (c =? 28)
  || (c =? 29) || (c =? 30) || (c =? 133) || (c =? 8232) || (c =? 8233).

(** [splitlines_from cur s]: the lines of [s] when [cur] holds, reversed,
    the characters of the line being read.  CR LF is one boundary; no empty
    line follows the last boundary. *)
Fixpoint splitlines_from (cur : str) (s : str) : list str :=
  match s with
  | [] => match cur with [] => [] | _ => [reverse cur] end
  | c :: s' =>
      if is_linebreak c then
        reverse cur ::
          match s' with
          | d :: s'' => if (c =? 13) && (d =? 10)
                        then splitlines_from [] s''
                        else splitlines_from [] s'
          | [] => splitlines_from [] s'
          end
      else splitlines_from (c :: cur) s'
  end.

(** [s.splitlines()] *)
Definition splitlines (s : str) : list str := splitlines_from [] s.

Definition between (lo hi c : N) : bool := (lo <=? c) && (c <=? hi).

(** A continuation octet of UTF-8. *)
Definition utf8_cont (b : N) : bool := between 128 191 b.

(** [data.decode('utf-8')] with strict errors: [None] stands for
    [UnicodeDecodeError] (an invalid, overlong, surrogate or truncated
    sequence). *)
Fixpoint utf8_decode (data : list N) : option str :=
  match data with
  | [] => Some []
  | b0 :: r0 =>
      if b0 <? 128 then cons b0 <$> utf8_decode r0
      else if between 194 223 b0 then
        match r0 with
        | b1 :: r1 =>
            if utf8_cont b1
            then cons ((b0 - 192) * 64 + (b1 - 128)) <$> utf8_decode r1
            else None
        | _ => None
        end
      else if between 224 239 b0 then
        match r0 with
        | b1 :: b2 :: r2 =>
            if (if b0 =? 224 then between 160 191 b1
                else if b0 =? 237 then between 128 159 b1
                else utf8_cont b1) && utf8_cont b2
            then cons ((b0 - 224) * 4096 + (b1 - 128) * 64 + (b2 - 128))
                   <$> utf8_decode r2
            else None
        | _ => None
        end
      else if between 240 244 b0 then
        match r0 with
        | b1 :: b2 :: b3 :: r3 =>
            if (if b0 =? 240 then between 144 191 b1
                else if b0 =? 244 then between 128 143 b1
                else utf8_cont b1) && utf8_cont b2 && utf8_cont b3
            then cons ((b0 - 240) * 262144 + (b1 - 128) * 4096
                       + (b2 - 128) * 64 + (b3 - 128))
                   <$> utf8_decode r3
            else None
        | _ => None
        end
      else None
  end.

(** Python compares strings code point by code point. *)
Fixpoint str_leb (x y : str) : bool :=
  match x, y with
  | [], _ => true
  | _ :: _, [] => false
  | a :: x', b :: y' => (a <? b) || ((a =? b) && str_leb x' y')
  end.

Fixpoint insert_sorted (x : str) (l : list str) : list str :=
  match l with
  | [] => [x]
  | y :: l' => if str_leb x y then x :: l else y :: insert_sorted x l'
  end.

(** [sorted(names)] *)
Definition sorted (names : list str) : list str := foldr insert_sorted [] names.

(** ** The package index and the interpreter's environment *)

(** The response of [urlopen]: [response.status] and [response.read()]. *)
Record response : Type := {
  status : Z;
  data : list N
}.

(** An artifact descriptor of [release_urls]: [download['packagetype']] and
    [download['url']]. *)
Record download : Type := {
  packagetype : str;
  url : str
}.

(** What the outside answers during one call of the module.  A remote call
    returns ([inr]) or raises ([inl]). *)
Record PyPI : Type := {
  (** [multiprocessing.cpu_count()]; [None]: [NotImplementedError] *)
  cpu_count : option nat;
  (** [urllib_request.urlopen(url)] on the classifier list *)
  urlopen : exn + response;
  (** [client.browse(classifiers)]: rows [[name, version]] *)
  browse : list str → exn + list (str * str);
  (** [client.package_releases(name)] *)
  package_releases : str → exn + list str;
  (** [client.release_urls(name, version)] *)
  release_urls : str → str → exn + list download;
  (** [client('close')()]: [None] when it returns *)
  close : option exn;
  (** [json.loads] of the packaged [overrides.json]: name to note or null *)
  overrides_json : gmap str (option str)
}.

(** The [manual_overrides] argument: the mapping the module loads, or, as
    the comment in [all_pypy_projects] allows, a set or another collection
    of names. *)
Inductive overrides_arg : Type :=
| OvDict (d : gmap str (option str))
| OvSet (s : gset str)
| OvList (l : list str).

(** What [projects_matching_classifier] returns: a [frozenset], or the list
    [[]] of its [except] branch. *)
Inductive iterable : Type :=
| PyFrozenSet (s : gset str)
| PyList (l : list str).

(** ** Effects *)

Inductive message : Type :=
| Text (s : str)
(** ['Fetching project list for {0!r}'.format(classifier)] *)
| FetchingProjectList (classifier : str)
(** ['Stale overrides: {0}'.format(stale_overrides)] *)
| StaleOverrides (stale : gset str).

Inductive event : Type :=
| LogInfo (m : message)
| LogWarning (m : message)
(** [ThreadPoolExecutor(max_workers=n)] *)
| ExecutorCreated (max_workers : nat)
(** a task handed to the executor by [submit] or [executor.map] *)
| ExecutorSubmitted (classifier : str)
(** the executor's [__exit__]: [shutdown(wait=True)] *)
| ExecutorShutdown.

(** A computation: from the events so far to an outcome and the events
    after. *)
Definition M (A : Type) : Type := list event → (exn + A) * list event.

Definition ret {A} (a : A) : M A := λ tr, (inr a, tr).

Definition raise {A} (e : exn) : M A := λ tr, (inl e, tr).

Definition bind {A B} (m : M A) (k : A → M B) : M B :=
  λ tr, match m tr with
        | (inr a, tr') => k a tr'
        | (inl e, tr') => (inl e, tr')
        end.

Notation "x <- m ;; k" := (bind m (λ x, k))
  (at level 100, m at next level, right associativity).
Notation "m ;;; k" := (bind m (λ _, k))
  (at level 100, right associativity).

Definition emit (e : event) : M () := λ tr, (inr (), tr ++ [e]).

(** The outcome of a call of the outside. *)
Definition call {A} (r : exn + A) : M A :=
  match r with
  | inr a => ret a
  | inl e => raise e
  end.

(** [try: m / except <caught>: handler] *)
Definition try_except {A} (m : M A) (caught : exn → bool) (handler : M A) : M A :=
  λ tr, match m tr with
        | (inl e, tr') => if caught e then handler tr' else (inl e, tr')
        | r => r
        end.

(** [try: m / finally: fin]; an exception of [fin] replaces the outcome of
    [m]. *)
Definition try_finally {A} (m : M A) (fin : M ()) : M A :=
  λ tr, let '(r, tr') := m tr in
        match fin tr' with
        | (inl e, tr'') => (inl e, tr'')
        | (inr _, tr'') => (r, tr'')
        end.

(** [for x in xs: acc = body(acc, x)] *)
Fixpoint for_each {A B} (xs : list A) (acc : B) (body : B → A → M B) : M B :=
  match xs with
  | [] => ret acc
  | x :: xs' => acc' <- body acc x ;; for_each xs' acc' body
  end.

Definition is_ExpatError (e : exn) : bool :=
  match e with ExpatError => true | _ => false end.

Definition is_ExpatError_or_Fault (e : exn) : bool :=
  match e with ExpatError | Fault => true | _ => false end.

Definition is_TypeError (e : exn) : bool :=
  match e with TypeError => true | _ => false end.

(** ** The module *)

Section Module.
Context {U : Unicode} (env : PyPI).

(** [CPU_COUNT = max(2, multiprocessing.cpu_count())], and 2 when the count
    is not implemented. *)
Definition CPU_COUNT : nat :=
  match cpu_count env with
  | Some n => Nat.max 2 n
  | None => 2%nat
  end.

(** [pypi_client]: the body runs with the client (the index is [env]); on
    exit the close is attempted and its [ExpatError] or [Fault] is passed
    over. *)
Definition pypi_client {A} (body : M A) : M A :=
  try_finally body
    (try_except
       (call (match close env with Some e => inl e | None => inr () end))
       is_ExpatError_or_Fault
       (ret ())).

(** [overrides] *)
Definition overrides : M overrides_arg := ret (OvDict (overrides_json env)).

Definition list_classifiers_url : str :=
  lit "https://pypi.python.org/pypi?%3Aaction=list_classifiers".

Definition base_classifier : str :=
  lit "Programming Language :: Python :: Implementation :: PyPy".

(** [pypy_classifiers].  The status test and the read run in the call; the
    generator returned only filters, so it is given as the list it
    yields. *)
Definition pypy_classifiers : M (list str) :=
  response <- call (urlopen env) ;;
  data <- (if bool_decide (status response ≠ 200%Z)
           then raise (ValueError (lit "PyPI responded with status "
                                   ++ lit (pretty (status response))
                                   ++ lit " for " ++ list_classifiers_url))
           else ret (data response)) ;;
  text <- call (from_option inr (inl UnicodeDecodeError) (utf8_decode data)) ;;
  let classifiers := splitlines text in
  ret (filter (λ classifier, startswith classifier base_classifier = true)
         classifiers).

(** [projects_matching_classifier] *)
Definition projects_matching_classifier (classifier : str) : M iterable :=
  pypi_client
    (emit (LogInfo (FetchingProjectList classifier)) ;;;
     try_except
       (results <- call (browse env [classifier]) ;;
        ret (PyFrozenSet (list_to_set ((λ result, str_lower result.1) <$> results))))
       is_ExpatError
       (emit (LogInfo (Text (lit "PyPI didn't return any results"))) ;;;
        ret (PyList []))).

(** [projects.update(result)] *)
Definition set_update (projects : gset str) (result : iterable) : gset str :=
  match result with
  | PyFrozenSet s => projects ∪ s
  | PyList l => projects ∪ list_to_set l
  end.

(** The names [manual_overrides] iterates over. *)
Definition names (manual_overrides : overrides_arg) : list str :=
  match manual_overrides with
  | OvDict d => elements (dom d)
  | OvSet s => elements s
  | OvList l => l
  end.

(** [len(manual_overrides)] *)
Definition len (manual_overrides : overrides_arg) : nat :=
  match manual_overrides with
  | OvDict d => size d
  | OvSet s => size s
  | OvList l => length l
  end.

(** [manual_overrides[override]]: only a mapping is subscriptable by a
    name. *)
Definition getitem (manual_overrides : overrides_arg) (override : str)
  : M (option str) :=
  match manual_overrides with
  | OvDict d => match d !! override with
                | Some note => ret note
                | None => raise KeyError
                end
  | OvSet _ | OvList _ => raise TypeError
  end.

(** ['{0}'.format(note)] *)
Definition format_note (note : option str) : str :=
  match note with
  | Some s => s
  | None => lit "None"
  end.

(** [all_pypy_projects].  The loop over [map(projects_matching_classifier,
    pypy_classifiers())] is the builtin [map]: the calls are made one after
    the other where the loop runs. *)
Definition all_pypy_projects (manual_overrides : option overrides_arg)
  : M (gset str) :=
  emit (ExecutorCreated CPU_COUNT) ;;;
  projects <- try_finally
                (classifiers <- pypy_classifiers ;;
                 for_each classifiers (∅ : gset str)
                   (λ projects classifier,
                      result <- projects_matching_classifier classifier ;;
                      ret (set_update projects result)))
                (emit ExecutorShutdown) ;;
  manual_overrides <- match manual_overrides with
                      | None => overrides
                      | Some given => ret given
                      end ;;
  let stale_overrides := projects ∩ list_to_set (names manual_overrides) in
  emit (LogInfo (Text (lit "Adding " ++ lit (pretty (len manual_overrides))
                       ++ lit " overrides:"))) ;;;
  for_each (sorted (names manual_overrides)) ()
    (λ _ override,
       let msg := override in
       msg <- try_except
                (note <- getitem manual_overrides override ;;
                 ret (msg ++ lit " (" ++ format_note note ++ lit ")"))
                is_TypeError
                (ret msg) ;;
       emit (LogInfo (Text (lit "    " ++ msg)))) ;;;
  (if bool_decide (stale_overrides ≠ ∅)
   then emit (LogWarning (StaleOverrides stale_overrides))
   else ret ()) ;;;
  ret (projects ∪ list_to_set (names manual_overrides)).

(** [is_pure_python].  The loop over the downloads returns true at the
    first universal wheel and false after the last download: it is
    [existsb]. *)
Definition is_pure_python (dependency : str) : M bool :=
  pypi_client
    (releases <- call (package_releases env dependency) ;;
     match last releases with
     | None => ret false
     | Some latest =>
         downloads <- call (release_urls env dependency latest) ;;
         ret (existsb
                (λ download,
                   bool_decide (packagetype download = lit "bdist_wheel")
                   && (contains (lit "py2.py3-none-any") (url download)
                       || contains (lit "py2.none-any") (url download)))
                downloads)
     end).

End Module.

(** ** The tables on Latin and combining marks

    [str.isalnum] and [str.lower] of CPython 3 on U+0000..U+017F (Basic
    Latin, Latin-1 Supplement, Latin Extended-A) and U+0300..U+036F
    (Combining Diacritical Marks).  Other code points are taken as
    non-alphanumeric and unchanged by lowering. *)

Definition latin_isalnum (c : N) : bool :=
  between 48 57 c || between 65 90 c || between 97 122 c
  || (c =? 170) || between 178 179 c || (c =? 181) || between 185 186 c
  || between 188 190 c || between 192 214 c || between 216 246 c
  || between 248 383 c.

Definition latin_lower_char (c : N) : str :=
  if between 65 90 c || between 192 214 c || between 216 222 c then [c + 32]
  else if c =? 304 then [105; 775]
  else if c =? 376 then [255]
  else if (between 256 302 c || between 306 310 c || between 330 374 c)
          && N.even c then [c + 1]
  else if (between 313 327 c || between 377 381 c) && N.odd c then [c + 1]
  else [c].

Definition latin_lower (s : str) : str := s ≫= latin_lower_char.

Definition latin_lower_fixed_upto (n : nat) : bool :=
  forallb (λ c, forallb (λ d, bool_decide (latin_lower_char d = [d]))
                        (latin_lower_char (N.of_nat c)))
          (seq 0 n).

Lemma between_above (lo hi c : N) : hi < c → between lo hi c = false.
Proof.
  intros Hc. unfold between. apply andb_false_iff. right.
  apply N.leb_gt. exact Hc.
Qed.

Lemma latin_lower_char_high (c : N) : 384 ≤ c → latin_lower_char c = [c].
Proof.
  intros Hc. unfold latin_lower_char.
  rewrite !between_above by lia.
  replace (c =? 304) with false by (symmetry; apply N.eqb_neq; lia).
  replace (c =? 376) with false by (symmetry; apply N.eqb_neq; lia).
  reflexivity.
Qed.

Lemma latin_lower_char_fixed (c d : N) :
  d ∈ latin_lower_char c → latin_lower_char d = [d].
Proof.
  intros Hd. destruct (decide (384 ≤ c)) as [Hhi|Hlo].
  - rewrite latin_lower_char_high in Hd by exact Hhi.
    apply list_elem_of_singleton in Hd. subst d.
    apply latin_lower_char_high, Hhi.
  - assert (Hall : latin_lower_fixed_upto 384 = true) by (vm_compute; reflexivity).
    unfold latin_lower_fixed_upto in Hall.
    rewrite forallb_forall in Hall.
    specialize (Hall (N.to_nat c)).
    rewrite N2Nat.id in Hall.
    assert (Hin : In (N.to_nat c) (seq 0 384)) by (apply in_seq; lia).
    specialize (Hall Hin). rewrite forallb_forall in Hall.
    apply list_elem_of_In in Hd. specialize (Hall d Hd).
    apply bool_decide_eq_true in Hall. exact Hall.
Qed.

Lemma latin_lower_idem (s : str) : latin_lower (latin_lower s) = latin_lower s.
Proof.
  unfold latin_lower. induction s as [|c s IH]; [reflexivity|].
  rewrite bind_cons, bind_app, IH. f_equal.
  assert (Hfix : ∀ l : str, (∀ d, d ∈ l → latin_lower_char d = [d]) →
                            l ≫= latin_lower_char = l).
  { induction l as [|d l IHl]; intros Hl; [reflexivity|].
    rewrite bind_cons, (Hl d) by (apply elem_of_cons; left; reflexivity).
    simpl. f_equal. apply IHl. intros e He. apply Hl.
    apply elem_of_cons. right. exact He. }
  apply Hfix. intros d Hd. eapply latin_lower_char_fixed, Hd.
Qed.

Lemma latin_lower_char_cons (c : N) : ∃ d l, latin_lower_char c = d :: l.
Proof. unfold latin_lower_char. repeat case_match; eauto. Qed.

Lemma latin_lower_nil (s : str) : latin_lower s = [] → s = [].
Proof.
  destruct s as [|c s]; [reflexivity|]. unfold latin_lower.
  rewrite bind_cons. destruct (latin_lower_char_cons c) as (d & l & ->).
  discriminate.
Qed.

(** CPython's tables on the Latin fragment. *)
#[export] Instance latin : Unicode := {|
  isalnum := latin_isalnum;
  str_lower := latin_lower;
  str_lower_idem := latin_lower_idem;
  str_lower_nil := latin_lower_nil
|}.

(** ** An index for the examples

    Four classifiers, of which two carry the PyPy prefix; the first of these
    has two projects, the browse of the second raises [ExpatError].  The
    status of the classifier list and the outcome of the close are left
    open. *)

Definition classifier_listing : list N :=
  lit "Development Status :: 4 - Beta" ++ [10]
  ++ base_classifier ++ [10]
  ++ base_classifier ++ lit "XYZ" ++ [10]
  ++ lit "Topic :: Internet" ++ [10].

Definition six_downloads : list download :=
  [ {| packagetype := lit "sdist";
       url := lit "https://files.example/six-1.16.0.tar.gz" |};
    {| packagetype := lit "bdist_wheel";
       url := lit "https://files.example/six-1.16.0-py2.py3-none-any.whl" |} ].

Definition example_index (code : Z) (closing : option exn) : PyPI := {|
  cpu_count := Some 4%nat;
  urlopen := inr {| status := code; data := classifier_listing |};
  browse := λ classifiers,
    if bool_decide (classifiers = [base_classifier])
    then inr [(lit "Foo", lit "1.0"); (lit "bar", lit "2.1")]
    else if bool_decide (classifiers = [base_classifier ++ lit "XYZ"])
         then inl ExpatError
         else inr [];
  package_releases := λ name,
    if bool_decide (name = lit "six") then inr [lit "1.0"; lit "1.16.0"]
    else inr [];
  release_urls := λ name version,
    if bool_decide (version = lit "1.16.0") then inr six_downloads else inr [];
  close := closing;
  overrides_json := {[ lit "foo-bar" := Some (lit "note") ]}
|}.

(** * Properties *)

(** ** The name normalizer *)

Section Normalizer.
Context {U : Unicode}.

(** A character of the class [[\w.-]]: alphanumeric, underscore, dot or
    dash. *)
Definition name_char (c : N) : Prop :=
  isalnum c = true ∨ c = 95 ∨ c = 46 ∨ c = 45.

(** [run] is the leading run of [s]: a non-empty prefix of characters of
    the class that no character of the class follows. *)
Definition leading_run (s run : str) : Prop :=
  run ≠ [] ∧ Forall name_char run
  ∧ ∃ rest, s = run ++ rest ∧ ∀ c rest', rest = c :: rest' → ¬ name_char c.

Lemma class_matches_name_char (c : N) :
  class_matches [CWord; CChar 46; CChar 45] c = true ↔ name_char c.
Proof.
  unfold class_matches, name_char. simpl.
  rewrite orb_false_r, !orb_true_iff, !N.eqb_eq. tauto.
Qed.

Lemma class_matches_not_name_char (c : N) :
  class_matches [CWord; CChar 46; CChar 45] c = false ↔ ¬ name_char c.
Proof.
  rewrite <- class_matches_name_char. destruct (class_matches _ c); split; auto.
  intros Hn. exfalso. apply Hn. reflexivity.
Qed.

(** The greedy repetition stops exactly where the run described by
    [Forall name_char] and a non-class follower stops. *)
Lemma consume_run (run rest : str) :
  Forall name_char run →
  (∀ c rest', rest = c :: rest' → ¬ name_char c) →
  consume [CWord; CChar 46; CChar 45] (run ++ rest) = (run, rest).
Proof.
  intros Hrun Hrest. induction Hrun as [|c run Hc _ IH]; cbn [app consume].
  - destruct rest as [|c rest']; [reflexivity|]. cbn [consume].
    assert (Hc : ¬ name_char c) by (eapply Hrest; reflexivity).
    apply class_matches_not_name_char in Hc. rewrite Hc. reflexivity.
  - apply class_matches_name_char in Hc. rewrite Hc, IH. reflexivity.
Qed.

Lemma consume_split (s g r : str) :
  consume [CWord; CChar 46; CChar 45] s = (g, r) →
  s = g ++ r ∧ Forall name_char g
  ∧ ∀ c rest', r = c :: rest' → ¬ name_char c.
Proof.
  revert g r. induction s as [|c s IH]; intros g r; cbn [consume].
  - intros [= <- <-]. repeat split; [constructor|discriminate].
  - destruct (class_matches _ c) eqn:Hc.
    + destruct (consume _ s) as [g' r'] eqn:Hs. intros [= <- <-].
      destruct (IH g' r' eq_refl) as (-> & Hg & Hr).
      repeat split; [|exact Hr].
      constructor; [apply class_matches_name_char, Hc|exact Hg].
    + intros [= <- <-]. repeat split; [constructor|].
      intros c' rest' [= <- <-]. apply class_matches_not_name_char, Hc.
Qed.

(** C2: when [s] has a non-empty leading run of characters of [[\w.-]],
    [just_name s] is that run lowercased; when it has none, [just_name s]
    fails with the error of a match that is [None] (the specification's
    [MalformedNameError]). *)
Theorem just_name_leading_run (s : str) :
  (∀ run, leading_run s run → just_name s = inr (str_lower run))
  ∧ ((∀ run, ¬ leading_run s run) → just_name s = inl AttributeError).
Proof.
  unfold just_name, re_match, PROJECT_NAME. split.
  - intros run (Hne & Hrun & rest & -> & Hrest).
    rewrite (consume_run run rest Hrun Hrest).
    destruct run; [contradiction|reflexivity].
  - intros Hnone.
    destruct (consume _ s) as [g r] eqn:Hs.
    destruct g as [|c g]; [reflexivity|].
    destruct (consume_split s (c :: g) r Hs) as (Heq & Hg & Hr).
    exfalso. apply (Hnone (c :: g)).
    split; [discriminate|]. split; [exact Hg|]. exists r. split; assumption.
Qed.

(** What [just_name] returns is never empty. *)
Lemma just_name_nonempty (s v : str) : just_name s = inr v → v ≠ [].
Proof.
  unfold just_name, re_match, PROJECT_NAME.
  destruct (consume _ s) as [[|c g] r]; [discriminate|].
  intros [= <-] Hnil. apply str_lower_nil in Hnil. discriminate.
Qed.

Lemma just_name_lowered (s v : str) : just_name s = inr v → str_lower v = v.
Proof.
  unfold just_name. destruct (re_match _ s); [|discriminate].
  intros [= <-]. apply str_lower_idem.
Qed.

(** C9, amended: when [just_name s] succeeds and every character of its
    result is again of the class [[\w.-]], [just_name] of the result
    succeeds and returns the result. *)
Theorem just_name_idempotent (s v : str) :
  just_name s = inr v → Forall name_char v → just_name v = inr v.
Proof.
  intros Hs Hv.
  pose proof (just_name_nonempty s v Hs) as Hne.
  pose proof (just_name_lowered s v Hs) as Hlow.
  unfold just_name, re_match, PROJECT_NAME.
  replace (consume [CWord; CChar 46; CChar 45] v) with (v, @nil N).
  - destruct v as [|c v]; [contradiction|]. rewrite Hlow. reflexivity.
  - symmetry. rewrite <- (app_nil_r v) at 1.
    apply consume_run; [exact Hv|discriminate].
Qed.

End Normalizer.

(** [just_name "Foo>=1.2.3"] is ["foo"], by C2 on the leading run
    ["Foo"]. *)
Lemma just_name_leading_run_witness :
  just_name (U:=latin) (lit "Foo>=1.2.3") = inr (lit "foo").
Proof.
  apply (proj1 (just_name_leading_run (U:=latin) (lit "Foo>=1.2.3")) (lit "Foo")).
  split; [discriminate|]. split.
  - repeat constructor.
  - exists (lit ">=1.2.3"). split; [reflexivity|].
    intros c rest' [= <- _] [Hc|[Hc|[Hc|Hc]]]; discriminate.
Defined.

(** C9 fails on LATIN CAPITAL LETTER I WITH DOT ABOVE (U+0130): it is a
    word character and lowers to U+0069 U+0307, whose combining dot is not
    one.  [just_name] of the one-character string succeeds with the two
    characters, and [just_name] of those returns the first alone. *)
Lemma just_name_not_idempotent :
  just_name (U:=latin) [304] = inr [105; 775]
  ∧ just_name (U:=latin) [105; 775] = inr [105].
Proof. split; reflexivity. Qed.

(** ["foo"], the result of [just_name "Foo>=1.2.3"], is its own
    [just_name]. *)
Lemma just_name_idempotent_witness :
  just_name (U:=latin) (lit "foo") = inr (lit "foo").
Proof.
  apply (just_name_idempotent (U:=latin) (lit "Foo>=1.2.3") (lit "foo")).
  - reflexivity.
  - repeat constructor.
Defined.

(** On the Latin tables, lowering keeps every character of the class
    [[\w.-]] in the class, U+0130 apart. *)
Definition latin_lower_keeps_class_upto (n : nat) : bool :=
  forallb (λ c, (N.of_nat c =? 304)
                || negb (class_matches (U:=latin) [CWord; CChar 46; CChar 45]
                           (N.of_nat c))
                || forallb (class_matches (U:=latin) [CWord; CChar 46; CChar 45])
                     (latin_lower_char (N.of_nat c)))
          (seq 0 n).

Lemma latin_name_char_below (c : N) : name_char (U:=latin) c → c < 384.
Proof.
  unfold name_char. cbn [isalnum latin]. unfold latin_isalnum, between.
  intros [Hc|[Hc|[Hc|Hc]]]; [|subst c; lia..].
  repeat (apply orb_true_iff in Hc as [Hc|Hc]);
    repeat (apply andb_true_iff in Hc as [? Hc]);
    repeat match goal with
           | H : (_ <=? _) = true |- _ => apply N.leb_le in H
           | H : (_ =? _) = true |- _ => apply N.eqb_eq in H
           end; lia.
Qed.

Lemma latin_lower_char_name_char (c : N) :
  c ≠ 304 → name_char (U:=latin) c →
  Forall (name_char (U:=latin)) (latin_lower_char c).
Proof.
  intros Hdot Hc. pose proof (latin_name_char_below c Hc) as Hlt.
  assert (Hall : latin_lower_keeps_class_upto 384 = true)
    by (vm_compute; reflexivity).
  unfold latin_lower_keeps_class_upto in Hall. rewrite forallb_forall in Hall.
  specialize (Hall (N.to_nat c)). rewrite N2Nat.id in Hall.
  assert (Hin : In (N.to_nat c) (seq 0 384)) by (apply in_seq; lia).
  specialize (Hall Hin).
  apply orb_true_iff in Hall as [Hall|Hall].
  - apply orb_true_iff in Hall as [Hall|Hall].
    + apply N.eqb_eq in Hall. contradiction.
    + apply class_matches_name_char in Hc. rewrite Hc in Hall. discriminate.
  - rewrite forallb_forall in Hall. apply Forall_forall. intros d Hd.
    apply class_matches_name_char, Hall, list_elem_of_In, Hd.
Qed.

(** On the Latin tables the condition of C9 as amended holds for every
    input without U+0130. *)
Lemma latin_just_name_chars (s v : str) :
  304 ∉ s → just_name (U:=latin) s = inr v → Forall (name_char (U:=latin)) v.
Proof.
  unfold just_name, re_match, PROJECT_NAME. intros Hdot.
  destruct (consume _ s) as [g r] eqn:Hs.
  destruct (consume_split s g r Hs) as (-> & Hg & _).
  destruct g as [|c g]; [discriminate|]. intros [= <-].
  change (Forall (name_char (U:=latin)) ((c :: g) ≫= latin_lower_char)).
  rewrite Forall_bind. apply Forall_forall. intros d Hd.
  apply latin_lower_char_name_char.
  - intros ->. apply Hdot, elem_of_app. left. exact Hd.
  - rewrite Forall_forall in Hg. apply Hg, Hd.
Qed.

(** ** String tests *)

Lemma startswith_prefix (s p : str) : startswith s p = true ↔ p `prefix_of` s.
Proof.
  revert s. induction p as [|a p IH]; intros s; simpl.
  - split; [intros _; apply prefix_nil|reflexivity].
  - destruct s as [|c s].
    + split; [discriminate|]. intros [k Hk]. discriminate.
    + rewrite andb_true_iff, N.eqb_eq, IH. split.
      * intros [-> Hp]. apply prefix_cons, Hp.
      * intros [k Hk]. injection Hk as -> ->. split; [reflexivity|].
        exists k. reflexivity.
Qed.

(** [sub] occurs in [s]. *)
Definition substring_of (sub s : str) : Prop :=
  ∃ before after, s = before ++ sub ++ after.

Lemma contains_substring (sub s : str) :
  contains sub s = true ↔ substring_of sub s.
Proof.
  induction s as [|c s IH].
  - simpl. rewrite orb_false_r, startswith_prefix. split.
    + intros [k Hk]. exists [], k. exact Hk.
    + intros (before & after & Heq). symmetry in Heq.
      apply app_eq_nil in Heq as [-> Heq].
      apply app_eq_nil in Heq as [-> _]. apply prefix_nil.
  - cbn [contains]. rewrite orb_true_iff, startswith_prefix, IH. split.
    + intros [[k Hk]|(before & after & ->)].
      * exists [], k. exact Hk.
      * exists (c :: before), after. reflexivity.
    + intros ([|b before] & after & Heq).
      * left. exists after. exact Heq.
      * right. injection Heq as -> ->. exists before, after. reflexivity.
Qed.

(** ** Effects *)

Lemma call_inr {A} (a : A) : call (inr a) = ret a.
Proof. reflexivity. Qed.

Lemma call_inl {A} (e : exn) : call (A:=A) (inl e) = raise e.
Proof. reflexivity. Qed.

Lemma bind_ret {A B} (a : A) (k : A → M B) (tr : list event) :
  bind (ret a) k tr = k a tr.
Proof. reflexivity. Qed.

Lemma bind_raise {A B} (e : exn) (k : A → M B) (tr : list event) :
  bind (raise e) k tr = (inl e, tr).
Proof. reflexivity. Qed.

Lemma bind_emit {B} (e : event) (k : () → M B) (tr : list event) :
  bind (emit e) k tr = k () (tr ++ [e]).
Proof. reflexivity. Qed.

Ltac run :=
  repeat (rewrite ?call_inr, ?call_inl, ?bind_ret, ?bind_raise, ?bind_emit;
          cbv beta).

Lemma pypi_client_run {A} (env : PyPI) (body : M A) (tr : list event) :
  pypi_client env body tr =
    match close env with
    | Some e => if is_ExpatError_or_Fault e then body tr
                else (inl e, (body tr).2)
    | None => body tr
    end.
Proof.
  unfold pypi_client, try_finally, try_except, call, ret, raise.
  destruct (body tr) as [r tr']. destruct (close env) as [e|]; [|reflexivity].
  destruct e; reflexivity.
Qed.

(** The close returns, or raises what [pypi_client] passes over. *)
Definition close_passes (env : PyPI) : Prop :=
  close env = None ∨ close env = Some ExpatError ∨ close env = Some Fault.

Lemma pypi_client_passes {A} (env : PyPI) (body : M A) (tr : list event) :
  close_passes env → pypi_client env body tr = body tr.
Proof.
  intros [Hc|[Hc|Hc]]; rewrite pypi_client_run, Hc; reflexivity.
Qed.

(** ** The index client *)

(** C7, amended: on exit from [pypi_client], when the close returns or
    raises [ExpatError] or [Fault], the outcome and the events are those of
    the body; any other error the close raises reaches the caller in place
    of the body's outcome. *)
Theorem pypi_client_close {A} (env : PyPI) (body : M A) (tr : list event) :
  (close_passes env → pypi_client env body tr = body tr)
  ∧ (∀ e, close env = Some e → e ≠ ExpatError → e ≠ Fault →
          pypi_client env body tr = (inl e, (body tr).2)).
Proof.
  split; [apply pypi_client_passes|].
  intros e He Hexpat Hfault. rewrite pypi_client_run, He.
  destruct e; try reflexivity; contradiction.
Qed.

(** ** Classifier discovery *)

(** C5: when the response has status 200 and decodes, [pypy_classifiers]
    yields the lines of the response that have [base_classifier] as a
    prefix, in their order and as often as they occur; a line that extends
    the prefix, as with [XYZ], is among them. *)
Theorem pypy_classifiers_prefix (env : PyPI) (resp : response) (text : str)
    (tr : list event) :
  urlopen env = inr resp → status resp = 200%Z →
  utf8_decode (data resp) = Some text →
  pypy_classifiers env tr
  = (inr (filter (λ line, base_classifier `prefix_of` line) (splitlines text)), tr)
  ∧ (base_classifier ++ lit "XYZ" ∈ splitlines text →
     ∃ cs, pypy_classifiers env tr = (inr cs, tr)
           ∧ base_classifier ++ lit "XYZ" ∈ cs).
Proof.
  intros Hopen Hstatus Hdecode.
  assert (Hrun : pypy_classifiers env tr
                 = (inr (filter (λ line, base_classifier `prefix_of` line)
                           (splitlines text)), tr)).
  { unfold pypy_classifiers. rewrite Hopen. run. rewrite Hstatus.
    rewrite bool_decide_eq_false_2 by (intros Hne; apply Hne; reflexivity).
    run. rewrite Hdecode. cbn [from_option]. run. unfold ret. do 2 f_equal.
    apply list_filter_iff. intros line. apply startswith_prefix. }
  split; [exact Hrun|].
  intros Hin. eexists. split; [exact Hrun|].
  apply list_elem_of_filter. split; [|exact Hin].
  exists (lit "XYZ"). reflexivity.
Qed.

(** ['PyPI responded with status {0} for {1}'.format(status, url)] *)
Definition status_message (code : Z) : str :=
  lit "PyPI responded with status " ++ lit (pretty code)
  ++ lit " for " ++ list_classifiers_url.

(** C6: when the response has a status other than 200, [pypy_classifiers]
    raises [ValueError] (the specification's [RemoteFetchError]), and so
    does [all_pypy_projects], whatever the overrides: it stops after the
    executor is created and shut down, before any project is fetched or any
    override is logged. *)
Theorem pypy_classifiers_status (env : PyPI) (resp : response)
    (manual_overrides : option overrides_arg) (tr : list event) :
  urlopen env = inr resp → status resp ≠ 200%Z →
  pypy_classifiers env tr
  = (inl (ValueError (status_message (status resp))), tr)
  ∧ ∀ U : Unicode,
      all_pypy_projects env manual_overrides tr
      = (inl (ValueError (status_message (status resp))),
         tr ++ [ExecutorCreated (CPU_COUNT env); ExecutorShutdown]).
Proof.
  intros Hopen Hstatus.
  set (msg := status_message (status resp)).
  assert (Hrun : ∀ tr', pypy_classifiers env tr' = (inl (ValueError msg), tr')).
  { intros tr'. unfold pypy_classifiers. rewrite Hopen. run.
    rewrite bool_decide_eq_true_2 by exact Hstatus. run. reflexivity. }
  split; [apply Hrun|].
  intros U. unfold all_pypy_projects. run. unfold bind at 1, try_finally.
  unfold bind at 1. rewrite Hrun. unfold emit.
  rewrite <- app_assoc. reflexivity.
Qed.

(** ** The purity checker *)

(** A universal wheel: a [bdist_wheel] whose URL carries one of the two
    tags. *)
Definition universal_wheel (d : download) : Prop :=
  packagetype d = lit "bdist_wheel"
  ∧ (substring_of (lit "py2.py3-none-any") (url d)
     ∨ substring_of (lit "py2.none-any") (url d)).

(** C3: when the releases of [dependency] are fetched and the close passes,
    [is_pure_python] returns false on an empty release sequence; on a
    sequence that ends in [latest], whose artifacts are fetched, it returns
    whether one of them is a universal wheel. *)
Theorem is_pure_python_universal_wheel (env : PyPI) (dependency : str)
    (releases : list str) (tr : list event) :
  package_releases env dependency = inr releases →
  close_passes env →
  (releases = [] → is_pure_python env dependency tr = (inr false, tr))
  ∧ (∀ earlier latest downloads,
       releases = earlier ++ [latest] →
       release_urls env dependency latest = inr downloads →
       ∃ pure, is_pure_python env dependency tr = (inr pure, tr)
               ∧ (pure = true ↔ ∃ d, d ∈ downloads ∧ universal_wheel d)).
Proof.
  intros Hreleases Hclose. unfold is_pure_python.
  rewrite pypi_client_passes by exact Hclose.
  rewrite Hreleases. run. split.
  - intros ->. reflexivity.
  - intros earlier latest downloads -> Hurls.
    rewrite last_snoc, Hurls. run. eexists. split; [reflexivity|].
    rewrite existsb_exists. split.
    + intros (d & Hd & Hwheel). exists d.
      split; [apply list_elem_of_In, Hd|].
      apply andb_true_iff in Hwheel as [Htype Hurl].
      apply bool_decide_eq_true in Htype.
      apply orb_true_iff in Hurl. rewrite !contains_substring in Hurl.
      split; assumption.
    + intros (d & Hd & Htype & Hurl). exists d.
      split; [apply list_elem_of_In, Hd|].
      apply andb_true_iff. split; [apply bool_decide_eq_true, Htype|].
      apply orb_true_iff. rewrite !contains_substring. exact Hurl.
Qed.

(** ** The project aggregator *)

Section Aggregator.
Context {U : Unicode} (env : PyPI).

(** The names one browse contributes: those of its rows, lowercased; none
    when the browse raises. *)
Definition browsed (classifier : str) (x : str) : Prop :=
  ∃ rows name version,
    browse env [classifier] = inr rows ∧ (name, version) ∈ rows
    ∧ x = str_lower name.

(** The body of the loop over the classifiers. *)
Definition update_with (projects : gset str) (classifier : str) : M (gset str) :=
  result <- projects_matching_classifier env classifier ;;
  ret (set_update projects result).

(** The outcome of [pypy_classifiers], which emits nothing. *)
Definition classifiers_of : exn + list str := (pypy_classifiers env []).1.

Lemma pypy_classifiers_run (tr : list event) :
  pypy_classifiers env tr = (classifiers_of, tr).
Proof.
  unfold classifiers_of, pypy_classifiers.
  destruct (urlopen env) as [e|resp]; run; [reflexivity|].
  destruct (bool_decide (status resp ≠ 200%Z)); run; [reflexivity|].
  destruct (utf8_decode (data resp)) as [text|]; cbn [from_option]; run;
    reflexivity.
Qed.

Lemma projects_matching_classifier_body (classifier : str) (tr : list event) :
  projects_matching_classifier env classifier tr =
    pypi_client env
      (λ tr1,
         match browse env [classifier] with
         | inr results =>
             (inr (PyFrozenSet
                     (list_to_set ((λ result, str_lower result.1) <$> results))),
              tr1 ++ [LogInfo (FetchingProjectList classifier)])
         | inl e =>
             if is_ExpatError e
             then (inr (PyList []),
                   (tr1 ++ [LogInfo (FetchingProjectList classifier)])
                   ++ [LogInfo (Text (lit "PyPI didn't return any results"))])
             else (inl e, tr1 ++ [LogInfo (FetchingProjectList classifier)])
         end) tr.
Proof.
  unfold projects_matching_classifier. rewrite !pypi_client_run.
  assert (Hbody : ∀ tr1,
    bind (emit (LogInfo (FetchingProjectList classifier)))
      (λ _, try_except
              (results <- call (browse env [classifier]) ;;
               ret (PyFrozenSet
                      (list_to_set ((λ result, str_lower result.1) <$> results))))
              is_ExpatError
              (emit (LogInfo (Text (lit "PyPI didn't return any results"))) ;;;
               ret (PyList []))) tr1
    = match browse env [classifier] with
      | inr results =>
          (inr (PyFrozenSet
                  (list_to_set ((λ result, str_lower result.1) <$> results))),
           tr1 ++ [LogInfo (FetchingProjectList classifier)])
      | inl e =>
          if is_ExpatError e
          then (inr (PyList []),
                (tr1 ++ [LogInfo (FetchingProjectList classifier)])
                ++ [LogInfo (Text (lit "PyPI didn't return any results"))])
          else (inl e, tr1 ++ [LogInfo (FetchingProjectList classifier)])
      end).
  { intros tr1. run. unfold try_except.
    destruct (browse env [classifier]) as [e|results]; run; [|reflexivity].
    destruct (is_ExpatError e); run; reflexivity. }
  rewrite !Hbody. reflexivity.
Qed.

(** What one turn of the loop adds, when it returns. *)
Lemma update_with_returns (projects : gset str) (classifier : str)
    (tr tr' : list event) (projects' : gset str) :
  update_with projects classifier tr = (inr projects', tr') →
  ∀ x, x ∈ projects' ↔ x ∈ projects ∨ browsed classifier x.
Proof.
  unfold update_with, bind. rewrite projects_matching_classifier_body.
  rewrite pypi_client_run. unfold browsed.
  assert (Hset : ∀ (results : list (str * str)) x,
    x ∈ projects ∪ list_to_set ((λ result, str_lower result.1) <$> results)
    ↔ x ∈ projects ∨ ∃ name version, (name, version) ∈ results
                                     ∧ x = str_lower name).
  { intros results x.
    rewrite elem_of_union, elem_of_list_to_set, list_elem_of_fmap.
    split; (intros [Hx|Hx]; [left; exact Hx|right]).
    - destruct Hx as ([name version] & -> & Hin). eauto.
    - destruct Hx as (name & version & Hin & ->). exists (name, version). eauto. }
  destruct (browse env [classifier]) as [e|results] eqn:Hbrowse.
  - assert (Hnone : ∀ x, x ∈ projects ∪ list_to_set []
                         ↔ x ∈ projects
                           ∨ ∃ rows name version,
                               @inl exn (list (str * str)) e = inr rows
                               ∧ (name, version) ∈ rows ∧ x = str_lower name).
    { intros x. rewrite elem_of_union, elem_of_list_to_set.
      split; (intros [Hx|Hx]; [left; exact Hx|exfalso]).
      - apply elem_of_nil in Hx. exact Hx.
      - destruct Hx as (? & ? & ? & ? & _). discriminate. }
    destruct (is_ExpatError e); destruct (close env) as [c|];
      try destruct (is_ExpatError_or_Fault c); cbv beta iota delta [ret];
      intros [= <- _]; cbn [set_update]; apply Hnone.
  - destruct (close env) as [c|];
      try destruct (is_ExpatError_or_Fault c); cbv beta iota delta [ret];
      intros [= <- _]; cbn [set_update]; intros x; rewrite Hset; split;
      (intros [Hx|Hx]; [left; exact Hx|right]).
    all: try (destruct Hx as (name & version & Hin & ->); eauto 10).
    all: destruct Hx as (rows & name & version & [= <-] & Hin & ->); eauto.
Qed.

(** The loop over the classifiers, when it returns, has added what the
    browses of the classifiers contribute. *)
Lemma fetch_returns (cs : list str) (projects : gset str) (tr tr' : list event)
    (fetched : gset str) :
  for_each cs projects update_with tr = (inr fetched, tr') →
  ∀ x, x ∈ fetched ↔ x ∈ projects ∨ ∃ c, c ∈ cs ∧ browsed c x.
Proof.
  revert projects tr. induction cs as [|c cs IH]; intros projects tr.
  - cbn [for_each]. intros [= <- _] x. split; [auto|].
    intros [Hx|(c & Hc & _)]; [exact Hx|]. apply elem_of_nil in Hc. contradiction.
  - cbn [for_each]. unfold bind at 1.
    destruct (update_with projects c tr) as [[e|projects'] tr1] eqn:Hturn;
      [discriminate|].
    intros Hrest x. rewrite (IH _ _ Hrest x), (update_with_returns _ _ _ _ _ Hturn x).
    split.
    + intros [[Hx|Hx]|(c' & Hc' & Hx)]; [auto| |].
      * right. exists c. split; [apply elem_of_cons; auto|exact Hx].
      * right. exists c'. split; [apply elem_of_cons; auto|exact Hx].
    + intros [Hx|(c' & Hc' & Hx)]; [auto|].
      apply elem_of_cons in Hc' as [->|Hc']; [auto|]. right. eauto.
Qed.

(** The browse of [classifier] returns, or raises the [ExpatError] that
    [projects_matching_classifier] catches. *)
Definition browse_answers (classifier : str) : Prop :=
  (∃ rows, browse env [classifier] = inr rows)
  ∨ browse env [classifier] = inl ExpatError.

Lemma update_with_total (projects : gset str) (classifier : str)
    (tr : list event) :
  close_passes env → browse_answers classifier →
  ∃ projects' tr', update_with projects classifier tr = (inr projects', tr').
Proof.
  intros Hclose Hbrowse. unfold update_with, bind.
  rewrite projects_matching_classifier_body, pypi_client_passes by exact Hclose.
  destruct Hbrowse as [[rows ->]| ->]; cbn [is_ExpatError]; eauto.
Qed.

Lemma fetch_total (cs : list str) (projects : gset str) (tr : list event) :
  close_passes env → (∀ c, c ∈ cs → browse_answers c) →
  ∃ fetched tr', for_each cs projects update_with tr = (inr fetched, tr').
Proof.
  intros Hclose. revert projects tr.
  induction cs as [|c cs IH]; intros projects tr Hcs.
  - cbn [for_each]. unfold ret. eauto.
  - cbn [for_each]. unfold bind at 1.
    destruct (update_with_total projects c tr Hclose) as (projects' & tr1 & ->).
    { apply Hcs, elem_of_cons. auto. }
    apply IH. intros c' Hc'. apply Hcs, elem_of_cons. auto.
Qed.

(** The overrides in use: those given, or the packaged ones. *)
Definition overrides_in_use (manual_overrides : option overrides_arg)
  : overrides_arg :=
  match manual_overrides with
  | Some given => given
  | None => OvDict (overrides_json env)
  end.

End Aggregator.

(** The note that follows an override in its log record: the note of a
    mapping, in parentheses; nothing for a collection without notes. *)
Definition note_suffix (manual_overrides : overrides_arg) (override : str) : str :=
  match manual_overrides with
  | OvDict d => match d !! override with
                | Some note => lit " (" ++ format_note note ++ lit ")"
                | None => []
                end
  | OvSet _ | OvList _ => []
  end.

Definition override_record (manual_overrides : overrides_arg) (override : str)
  : event :=
  LogInfo (Text (lit "    " ++ override ++ note_suffix manual_overrides override)).

(** The body of the loop over the overrides. *)
Definition log_override (manual_overrides : overrides_arg) (_ : ())
    (override : str) : M () :=
  let msg := override in
  msg <- try_except
           (note <- getitem manual_overrides override ;;
            ret (msg ++ lit " (" ++ format_note note ++ lit ")"))
           is_TypeError
           (ret msg) ;;
  emit (LogInfo (Text (lit "    " ++ msg))).

Lemma log_override_run (manual_overrides : overrides_arg) (override : str)
    (tr : list event) :
  override ∈ names manual_overrides →
  log_override manual_overrides () override tr
  = (inr (), tr ++ [override_record manual_overrides override]).
Proof.
  intros Hin. unfold log_override, override_record, note_suffix, try_except.
  destruct manual_overrides as [d|s|l]; cbn [getitem].
  - cbn [names] in Hin. apply elem_of_elements, elem_of_dom in Hin as [note Hnote].
    rewrite Hnote. reflexivity.
  - unfold bind, raise, ret, emit. cbn. rewrite app_nil_r. reflexivity.
  - unfold bind, raise, ret, emit. cbn. rewrite app_nil_r. reflexivity.
Qed.

Lemma log_overrides_run (manual_overrides : overrides_arg) (l : list str)
    (tr : list event) :
  (∀ x, x ∈ l → x ∈ names manual_overrides) →
  for_each l () (log_override manual_overrides) tr
  = (inr (), tr ++ (override_record manual_overrides <$> l)).
Proof.
  revert tr. induction l as [|x l IH]; intros tr Hl.
  - cbn. unfold ret. rewrite app_nil_r. reflexivity.
  - cbn [for_each]. unfold bind at 1.
    rewrite log_override_run by (apply Hl, elem_of_cons; auto).
    rewrite IH by (intros y Hy; apply Hl, elem_of_cons; auto).
    rewrite fmap_cons, <- app_assoc. reflexivity.
Qed.

Lemma insert_sorted_perm (x : str) (l : list str) : insert_sorted x l ≡ₚ x :: l.
Proof.
  induction l as [|y l IH]; [reflexivity|]. cbn [insert_sorted].
  destruct (str_leb x y); [reflexivity|].
  rewrite IH. apply Permutation_swap.
Qed.

(** [sorted] rearranges. *)
Lemma sorted_perm (l : list str) : sorted l ≡ₚ l.
Proof.
  induction l as [|x l IH]; [reflexivity|].
  unfold sorted in *. cbn [foldr]. rewrite insert_sorted_perm, IH. reflexivity.
Qed.

Section Aggregation.
Context {U : Unicode} (env : PyPI).

(** The warning on stale overrides, when there are any. *)
Definition stale_warning (projects : gset str) (manual_overrides : overrides_arg)
  : list event :=
  if bool_decide (projects ∩ list_to_set (names manual_overrides) ≠ ∅)
  then [LogWarning (StaleOverrides
                      (projects ∩ list_to_set (names manual_overrides)))]
  else [].

(** The records of the overrides: their count, then one record for each in
    sorted order. *)
Definition override_records (manual_overrides : overrides_arg) : list event :=
  LogInfo (Text (lit "Adding " ++ lit (pretty (len manual_overrides))
                 ++ lit " overrides:"))
  :: (override_record manual_overrides <$> sorted (names manual_overrides)).

(** [all_pypy_projects], step by step: the classifiers, the loop over them
    inside the executor's block, then the overrides. *)
Lemma all_pypy_projects_run (manual_overrides : option overrides_arg)
    (tr : list event) :
  all_pypy_projects env manual_overrides tr =
    match classifiers_of env with
    | inl e => (inl e, tr ++ [ExecutorCreated (CPU_COUNT env); ExecutorShutdown])
    | inr cs =>
        match for_each cs ∅ (update_with env)
                (tr ++ [ExecutorCreated (CPU_COUNT env)]) with
        | (inl e, tr1) => (inl e, tr1 ++ [ExecutorShutdown])
        | (inr projects, tr1) =>
            let ov := overrides_in_use env manual_overrides in
            (inr (projects ∪ list_to_set (names ov)),
             tr1 ++ [ExecutorShutdown] ++ override_records ov
                 ++ stale_warning projects ov)
        end
    end.
Proof.
  unfold all_pypy_projects. run. unfold bind at 1, try_finally.
  unfold bind at 1. rewrite pypy_classifiers_run.
  destruct (classifiers_of env) as [e|cs].
  { unfold emit. rewrite <- app_assoc. reflexivity. }
  change (λ (projects : gset str) (classifier : str),
            result <- projects_matching_classifier env classifier ;;
            ret (set_update projects result)) with (update_with env).
  destruct (for_each cs ∅ (update_with env) _) as [[e|projects] tr1];
    unfold emit at 1; [reflexivity|].
  cbv zeta.
  assert (Hov : ∀ tr2,
    (match manual_overrides with
     | Some given => ret given
     | None => overrides env
     end) tr2 = (inr (overrides_in_use env manual_overrides), tr2)).
  { intros tr2. destruct manual_overrides; reflexivity. }
  unfold bind at 1. rewrite Hov. run.
  set (ov := overrides_in_use env manual_overrides).
  change (λ (_ : ()) (override : str),
            msg <- try_except
                     (note <- getitem ov override ;;
                      ret (override ++ lit " (" ++ format_note note ++ lit ")"))
                     is_TypeError (ret override) ;;
            emit (LogInfo (Text (lit "    " ++ msg))))
    with (log_override ov).
  unfold bind at 1. rewrite log_overrides_run.
  2: { intros x Hx. rewrite sorted_perm in Hx. exact Hx. }
  unfold stale_warning, override_records.
  destruct (bool_decide (projects ∩ list_to_set (names ov) ≠ ∅)); run;
    unfold ret; f_equal; rewrite <- ?app_assoc; cbn [app];
    rewrite ?app_nil_r; reflexivity.
Qed.

(** C1: for every index and every override table, when
    [all_pypy_projects] returns, the classifiers were obtained and the set
    returned holds exactly the lowercased names of the rows the browses of
    those classifiers returned, and the names of the override table; as a
    set it holds each name once.  It does return when the classifiers are
    obtained, every browse returns or raises [ExpatError], and the close
    passes. *)
Theorem all_pypy_projects_union (manual_overrides : overrides_arg)
    (tr : list event) :
  (∀ projects tr',
     all_pypy_projects env (Some manual_overrides) tr = (inr projects, tr') →
     ∃ cs, pypy_classifiers env tr = (inr cs, tr)
           ∧ (∀ x, x ∈ projects
                   ↔ (∃ c, c ∈ cs ∧ browsed env c x)
                     ∨ x ∈ names manual_overrides)
           ∧ NoDup (elements projects))
  ∧ (∀ cs, pypy_classifiers env tr = (inr cs, tr) →
           (∀ c, c ∈ cs → browse_answers env c) → close_passes env →
           ∃ projects tr',
             all_pypy_projects env (Some manual_overrides) tr
             = (inr projects, tr')).
Proof.
  rewrite all_pypy_projects_run, pypy_classifiers_run. split.
  - intros projects tr'.
    destruct (classifiers_of env) as [e|cs]; [discriminate|].
    destruct (for_each cs ∅ (update_with env) _) as [[e|fetched] tr1] eqn:Hloop;
      [discriminate|].
    cbv zeta. cbn [overrides_in_use]. intros [= <- _].
    exists cs. split; [reflexivity|]. split; [|apply NoDup_elements].
    intros x. rewrite elem_of_union, elem_of_list_to_set.
    rewrite (fetch_returns env _ _ _ _ _ Hloop x).
    split; [intros [[Hx|Hx]|Hx]|intros [Hx|Hx]]; auto.
    apply elem_of_empty in Hx. contradiction.
  - intros cs [= ->] Hbrowse Hclose.
    destruct (fetch_total env cs ∅ (tr ++ [ExecutorCreated (CPU_COUNT env)])
                Hclose Hbrowse) as (fetched & tr1 & ->).
    cbv zeta. eauto.
Qed.

End Aggregation.

Section Overrides.
Context {U : Unicode} (env : PyPI).

(** [manual_overrides] is a collection of names, not a mapping. *)
Definition not_a_mapping (manual_overrides : overrides_arg) : Prop :=
  match manual_overrides with
  | OvDict _ => False
  | OvSet _ | OvList _ => True
  end.

Lemma override_record_collection (manual_overrides : overrides_arg)
    (l : list str) :
  not_a_mapping manual_overrides →
  override_record manual_overrides <$> l
  = (λ x, LogInfo (Text (lit "    " ++ x))) <$> l.
Proof.
  intros Hov. apply list_fmap_ext. intros _ x _.
  unfold override_record, note_suffix.
  destruct manual_overrides; [contradiction| |]; rewrite app_nil_r; reflexivity.
Qed.

(** C10: when [manual_overrides] is a set or a list of names, the lookup of
    a note raises [TypeError]; [all_pypy_projects] passes over it: when it
    returns, every name of the collection is in the set returned, and the
    records of the overrides are the names alone, in sorted order, each
    after four spaces; and it returns whenever the classifiers are obtained,
    every browse returns or raises [ExpatError], and the close passes. *)
Theorem all_pypy_projects_collection (manual_overrides : overrides_arg)
    (tr : list event) :
  not_a_mapping manual_overrides →
  (∀ override tr0,
     getitem manual_overrides override tr0 = (inl TypeError, tr0))
  ∧ (∀ projects tr',
       all_pypy_projects env (Some manual_overrides) tr = (inr projects, tr') →
       (∀ x, x ∈ names manual_overrides → x ∈ projects)
       ∧ ∃ before after,
           tr' = before
                 ++ ((λ x, LogInfo (Text (lit "    " ++ x)))
                       <$> sorted (names manual_overrides))
                 ++ after)
  ∧ (∀ cs, pypy_classifiers env tr = (inr cs, tr) →
           (∀ c, c ∈ cs → browse_answers env c) → close_passes env →
           ∃ projects tr',
             all_pypy_projects env (Some manual_overrides) tr
             = (inr projects, tr')).
Proof.
  intros Hov. split; [|split].
  - intros override tr0. destruct manual_overrides; [contradiction| |]; reflexivity.
  - intros projects tr'. rewrite all_pypy_projects_run.
    destruct (classifiers_of env) as [e|cs]; [discriminate|].
    destruct (for_each cs ∅ (update_with env) _) as [[e|fetched] tr1];
      [discriminate|].
    cbv zeta. cbn [overrides_in_use]. intros [= <- <-]. split.
    + intros x Hx. apply elem_of_union. right.
      apply elem_of_list_to_set. exact Hx.
    + unfold override_records.
      rewrite override_record_collection by exact Hov.
      eexists (tr1 ++ [ExecutorShutdown] ++ [_]), _.
      rewrite <- !app_assoc. reflexivity.
  - intros cs Hcs Hbrowse Hclose.
    rewrite all_pypy_projects_run. rewrite pypy_classifiers_run in Hcs.
    injection Hcs as ->.
    destruct (fetch_total env cs ∅ (tr ++ [ExecutorCreated (CPU_COUNT env)])
                Hclose Hbrowse) as (fetched & tr1 & ->).
    cbv zeta. eauto.
Qed.

End Overrides.

Section Executor.
Context {U : Unicode} (env : PyPI).

(** A task handed to the executor. *)
Definition is_submission (e : event) : Prop :=
  match e with
  | ExecutorSubmitted _ => True
  | _ => False
  end.

Lemma update_with_trace (projects : gset str) (classifier : str)
    (tr : list event) :
  ∃ evs, (update_with env projects classifier tr).2 = tr ++ evs
         ∧ Forall (λ e, ¬ is_submission e) evs.
Proof.
  unfold update_with, bind.
  rewrite projects_matching_classifier_body, pypi_client_run.
  destruct (browse env [classifier]) as [e|rows];
    [destruct (is_ExpatError e)|];
    (destruct (close env) as [c|]; [destruct (is_ExpatError_or_Fault c)|]);
    cbn [snd fst]; unfold ret; cbn [snd];
    rewrite <- ?app_assoc; eexists; (split; [reflexivity|]);
    repeat constructor; intros [].
Qed.

Lemma fetch_trace (cs : list str) (projects : gset str) (tr : list event) :
  ∃ evs, (for_each cs projects (update_with env) tr).2 = tr ++ evs
         ∧ Forall (λ e, ¬ is_submission e) evs.
Proof.
  revert projects tr. induction cs as [|c cs IH]; intros projects tr.
  - exists []. split; [cbn; rewrite app_nil_r; reflexivity|constructor].
  - cbn [for_each]. unfold bind at 1.
    destruct (update_with_trace projects c tr) as (evs & Htr & Hevs).
    destruct (update_with env projects c tr) as [[e|projects'] tr1];
      cbn [snd] in Htr; subst tr1.
    + exists evs. split; [reflexivity|exact Hevs].
    + destruct (IH projects' (tr ++ evs)) as (evs' & -> & Hevs').
      exists (evs ++ evs'). split; [rewrite app_assoc; reflexivity|].
      apply Forall_app. split; assumption.
Qed.

(** C8, what the code does: [all_pypy_projects] creates an executor of
    [CPU_COUNT] workers, [max(2, cpu_count())] or 2 without a count, and
    hands it no task: its events start with the creation and hold no
    submission.  The browses run in the loop itself, one after the
    other. *)
Theorem all_pypy_projects_executor_idle
    (manual_overrides : option overrides_arg) :
  CPU_COUNT env = match cpu_count env with
                  | Some n => Nat.max 2 n
                  | None => 2%nat
                  end
  ∧ ∃ evs, (all_pypy_projects env manual_overrides []).2
           = ExecutorCreated (CPU_COUNT env) :: evs
           ∧ Forall (λ e, ¬ is_submission e) evs.
Proof.
  split; [reflexivity|]. rewrite all_pypy_projects_run.
  destruct (classifiers_of env) as [e|cs].
  { eexists. split; [reflexivity|]. repeat constructor. intros []. }
  destruct (fetch_trace cs ∅ ([] ++ [ExecutorCreated (CPU_COUNT env)]))
    as (evs & Htr & Hevs).
  destruct (for_each cs ∅ (update_with env) _) as [[e|fetched] tr1];
    cbn [snd] in Htr; subst tr1; cbv zeta; cbn [snd app];
    eexists; (split; [reflexivity|]).
  - apply Forall_app. split; [exact Hevs|]. repeat constructor. intros [].
  - apply Forall_app. split; [exact Hevs|].
    constructor; [intros []|]. unfold override_records.
    constructor; [intros []|]. apply Forall_app. split.
    + apply Forall_fmap, Forall_forall. intros x _ [].
    + unfold stale_warning. case_bool_decide; repeat constructor. intros [].
Qed.

End Executor.

(** ** Lowercasing and the overrides *)

Lemma all_pypy_projects_overrides_kept {U : Unicode} (env : PyPI)
    (manual_overrides : option overrides_arg) (tr : list event) (cs : list str) :
  classifiers_of env = inr cs →
  (∀ c, c ∈ cs → browse_answers env c) → close_passes env →
  ∃ projects tr',
    all_pypy_projects env manual_overrides tr = (inr projects, tr')
    ∧ ∀ x, x ∈ names (overrides_in_use env manual_overrides) → x ∈ projects.
Proof.
  intros Hcs Hbrowse Hclose. rewrite all_pypy_projects_run, Hcs.
  destruct (fetch_total env cs ∅ (tr ++ [ExecutorCreated (CPU_COUNT env)])
              Hclose Hbrowse) as (fetched & tr1 & ->).
  cbv zeta. eexists _, _. split; [reflexivity|].
  intros x Hx. apply elem_of_union. right. apply elem_of_list_to_set, Hx.
Qed.

Lemma example_index_answers (code : Z) (closing : option exn) (c : str) :
  c ∈ [base_classifier; base_classifier ++ lit "XYZ"] →
  browse_answers (example_index code closing) c.
Proof.
  intros Hc. apply elem_of_cons in Hc as [->|Hc].
  - left. eexists. reflexivity.
  - apply list_elem_of_singleton in Hc as ->. right. reflexivity.
Qed.

Lemma example_index_classifiers (closing : option exn) :
  classifiers_of (example_index 200 closing)
  = inr [base_classifier; base_classifier ++ lit "XYZ"].
Proof. reflexivity. Qed.

(** C4, what the code does: given the override table [{"Foo-Bar": None}],
    [all_pypy_projects] returns a set that holds ["Foo-Bar"] as given,
    which is not its own lowercasing. *)
Theorem all_pypy_projects_override_not_lowercased :
  ∃ projects tr',
    all_pypy_projects (U:=latin) (example_index 200 None)
      (Some (OvDict {[ lit "Foo-Bar" := None ]})) [] = (inr projects, tr')
    ∧ lit "Foo-Bar" ∈ projects
    ∧ @str_lower latin (lit "Foo-Bar") ≠ lit "Foo-Bar".
Proof.
  destruct (all_pypy_projects_overrides_kept (U:=latin) (example_index 200 None)
              (Some (OvDict {[ lit "Foo-Bar" := None ]})) [] _
              (example_index_classifiers None)
              (example_index_answers 200 None) (or_introl eq_refl))
    as (projects & tr' & Hrun & Hkept).
  exists projects, tr'. split; [exact Hrun|]. split; [|discriminate].
  apply Hkept. cbn [overrides_in_use names].
  rewrite elem_of_elements, dom_singleton_L. apply elem_of_singleton. reflexivity.
Qed.

(** ** The properties on the example index *)

(** With the override table [{"foo-bar": "note"}], [all_pypy_projects]
    returns a set that holds ["foo"], the lowercased name of a browsed row,
    and ["foo-bar"], which no browse returns. *)
Lemma all_pypy_projects_union_witness :
  ∃ projects tr',
    all_pypy_projects (U:=latin) (example_index 200 None)
      (Some (OvDict {[ lit "foo-bar" := Some (lit "note") ]})) []
    = (inr projects, tr')
    ∧ lit "foo" ∈ projects ∧ lit "foo-bar" ∈ projects.
Proof.
  destruct (all_pypy_projects_union (U:=latin) (example_index 200 None)
              (OvDict {[ lit "foo-bar" := Some (lit "note") ]}) [])
    as [Hreturns Htotal].
  destruct (Htotal [base_classifier; base_classifier ++ lit "XYZ"] eq_refl
              (example_index_answers 200 None) (or_introl eq_refl))
    as (projects & tr' & Hrun).
  exists projects, tr'. split; [exact Hrun|].
  destruct (Hreturns projects tr' Hrun) as (cs & Hcs & Hmem & _).
  assert (Hcs' : cs = [base_classifier; base_classifier ++ lit "XYZ"]).
  { rewrite pypy_classifiers_run, example_index_classifiers in Hcs. congruence. }
  subst cs. split; apply Hmem.
  - left. exists base_classifier. split; [apply elem_of_cons; left; reflexivity|].
    exists [(lit "Foo", lit "1.0"); (lit "bar", lit "2.1")], (lit "Foo"), (lit "1.0").
    split; [reflexivity|].
    split; [apply elem_of_cons; left; reflexivity|reflexivity].
  - right. cbn [names].
    rewrite elem_of_elements, dom_singleton_L. apply elem_of_singleton.
    reflexivity.
Defined.

(** The latest release of ["six"] has a universal wheel. *)
Lemma is_pure_python_universal_wheel_witness :
  ∃ pure,
    is_pure_python (example_index 200 None) (lit "six") [] = (inr pure, [])
    ∧ (pure = true ↔ ∃ d, d ∈ six_downloads ∧ universal_wheel d).
Proof.
  apply (proj2 (is_pure_python_universal_wheel (example_index 200 None)
                  (lit "six") [lit "1.0"; lit "1.16.0"] [] eq_refl
                  (or_introl eq_refl))
           [lit "1.0"] (lit "1.16.0") six_downloads eq_refl eq_refl).
Defined.

(** The two lines with the PyPy prefix are yielded, the one with [XYZ]
    among them. *)
Lemma pypy_classifiers_prefix_witness :
  pypy_classifiers (example_index 200 None) []
  = (inr [base_classifier; base_classifier ++ lit "XYZ"], []).
Proof.
  exact (proj1 (pypy_classifiers_prefix (example_index 200 None)
                  {| status := 200; data := classifier_listing |}
                  classifier_listing [] eq_refl eq_refl eq_refl)).
Defined.

(** A 204 for the classifier list stops the aggregation. *)
Lemma pypy_classifiers_status_witness :
  all_pypy_projects (U:=latin) (example_index 204 None) None []
  = (inl (ValueError (status_message 204)),
     [ExecutorCreated 4; ExecutorShutdown]).
Proof.
  apply (proj2 (pypy_classifiers_status (example_index 204 None)
                  {| status := 204; data := classifier_listing |} None []
                  eq_refl ltac:(discriminate))).
Defined.

(** C7 fails on a close that raises [ProtocolError]: the releases of the
    package are fetched and empty, so the body of [is_pure_python] returns
    false, as the call shows when the close returns; the error of the close
    reaches the caller instead. *)
Lemma pypi_client_close_propagates :
  is_pure_python (example_index 200 None) (lit "nothing") [] = (inr false, [])
  ∧ is_pure_python (example_index 200 (Some ProtocolError)) (lit "nothing") []
    = (inl ProtocolError, []).
Proof. split; reflexivity. Qed.

(** A [Fault] of the close is passed over. *)
Lemma pypi_client_close_witness :
  pypi_client (example_index 200 (Some Fault)) (ret true) [] = (inr true, []).
Proof.
  apply (proj1 (pypi_client_close (example_index 200 (Some Fault)) (ret true) [])).
  right. right. reflexivity.
Defined.

(** With the set [{"zope", "Django"}] as overrides, both names are in the
    set returned and the records of the overrides are the two names. *)
Lemma all_pypy_projects_collection_witness :
  ∃ projects tr',
    all_pypy_projects (U:=latin) (example_index 200 None)
      (Some (OvSet {[ lit "zope"; lit "Django" ]})) [] = (inr projects, tr')
    ∧ lit "zope" ∈ projects ∧ lit "Django" ∈ projects
    ∧ ∃ before after,
        tr' = before
              ++ ((λ x, LogInfo (Text (lit "    " ++ x)))
                    <$> sorted (elements ({[ lit "zope"; lit "Django" ]} : gset str)))
              ++ after.
Proof.
  destruct (all_pypy_projects_collection (U:=latin) (example_index 200 None)
              (OvSet {[ lit "zope"; lit "Django" ]}) [] I)
    as (_ & Hreturns & Htotal).
  destruct (Htotal [base_classifier; base_classifier ++ lit "XYZ"] eq_refl
              (example_index_answers 200 None) (or_introl eq_refl))
    as (projects & tr' & Hrun).
  exists projects, tr'. split; [exact Hrun|].
  destruct (Hreturns projects tr' Hrun) as (Hmem & Hrecords).
  split; [|split; [|exact Hrecords]]; apply Hmem; cbn [names];
    apply elem_of_elements; set_solver.
Defined.

(** * Further properties of the module *)

(** ** [just_name] *)

(** What [just_name] returns is a name in normal form: it is not empty and
    lowering leaves it as it is. *)
Theorem just_name_normal_form {U : Unicode} (s v : str) :
  just_name s = inr v → v ≠ [] ∧ str_lower v = v.
Proof.
  intros Hs. split; [eapply just_name_nonempty, Hs|eapply just_name_lowered, Hs].
Qed.

(** What follows the leading run plays no part: two inputs with the same
    run, each followed by nothing or by a character outside the class, have
    the same [just_name]. *)
Theorem just_name_ignores_rest {U : Unicode} (run rest rest' : str) :
  Forall name_char run →
  (∀ c r, rest = c :: r → ¬ name_char c) →
  (∀ c r, rest' = c :: r → ¬ name_char c) →
  just_name (run ++ rest) = just_name (run ++ rest').
Proof.
  intros Hrun Hrest Hrest'. unfold just_name, re_match, PROJECT_NAME.
  rewrite (consume_run run rest Hrun Hrest), (consume_run run rest' Hrun Hrest').
  reflexivity.
Qed.

(** ** [is_pure_python] *)

(** The close emits nothing: the events after [pypi_client] are those of
    its body. *)
Lemma pypi_client_events {A} (env : PyPI) (body : M A) (tr : list event) :
  (pypi_client env body tr).2 = (body tr).2.
Proof.
  rewrite pypi_client_run. destruct (close env) as [e|]; [|reflexivity].
  destruct (is_ExpatError_or_Fault e); reflexivity.
Qed.

(** [is_pure_python] logs nothing, and an error of either remote call is not
    caught: when the close passes, the error of [package_releases], or of
    [release_urls] on the last release, is the outcome. *)
Theorem is_pure_python_errors (env : PyPI) (dependency : str) (tr : list event) :
  (is_pure_python env dependency tr).2 = tr
  ∧ (close_passes env →
     (∀ e, package_releases env dependency = inl e →
           is_pure_python env dependency tr = (inl e, tr))
     ∧ (∀ releases latest e,
          package_releases env dependency = inr releases →
          last releases = Some latest →
          release_urls env dependency latest = inl e →
          is_pure_python env dependency tr = (inl e, tr))).
Proof.
  split.
  - unfold is_pure_python. rewrite pypi_client_events.
    destruct (package_releases env dependency) as [e|releases]; run;
      [reflexivity|].
    destruct (last releases) as [latest|]; [|reflexivity].
    destruct (release_urls env dependency latest) as [e|downloads]; run;
      reflexivity.
  - intros Hclose. unfold is_pure_python.
    rewrite pypi_client_passes by exact Hclose. split.
    + intros e ->. run. reflexivity.
    + intros releases latest e -> Hlast Hurls. run. rewrite Hlast, Hurls. run.
      reflexivity.
Qed.

(** Only the last release is looked at: two indexes that give the same
    releases for [dependency], the same artifacts for the last of them and
    the same close give the same answer, whatever they hold for the earlier
    releases. *)
Theorem is_pure_python_latest_only (env env' : PyPI) (dependency : str)
    (tr : list event) :
  package_releases env dependency = package_releases env' dependency →
  (∀ releases latest,
     package_releases env dependency = inr releases →
     last releases = Some latest →
     release_urls env dependency latest = release_urls env' dependency latest) →
  close env = close env' →
  is_pure_python env dependency tr = is_pure_python env' dependency tr.
Proof.
  intros Hreleases Hurls Hclose. unfold is_pure_python.
  rewrite !pypi_client_run, <- Hclose, <- Hreleases.
  assert (Hbody :
    (releases <- call (package_releases env dependency) ;;
     match last releases with
     | None => ret false
     | Some latest =>
         downloads <- call (release_urls env dependency latest) ;;
         ret (existsb
                (λ download,
                   bool_decide (packagetype download = lit "bdist_wheel")
                   && (contains (lit "py2.py3-none-any") (url download)
                       || contains (lit "py2.none-any") (url download)))
                downloads)
     end) tr
    = (releases <- call (package_releases env dependency) ;;
       match last releases with
       | None => ret false
       | Some latest =>
           downloads <- call (release_urls env' dependency latest) ;;
           ret (existsb
                  (λ download,
                     bool_decide (packagetype download = lit "bdist_wheel")
                     && (contains (lit "py2.py3-none-any") (url download)
                         || contains (lit "py2.none-any") (url download)))
                  downloads)
       end) tr).
  { destruct (package_releases env dependency) as [e|releases] eqn:Hr; run;
      [reflexivity|].
    destruct (last releases) as [latest|] eqn:Hlast; [|reflexivity].
    rewrite (Hurls releases latest eq_refl Hlast). reflexivity. }
  rewrite Hbody. reflexivity.
Qed.



(** ** [pypy_classifiers] *)

(** An error of [urlopen] is the outcome of [pypy_classifiers], and so is
    the [UnicodeDecodeError] of a body that is not UTF-8, status 200 or
    not being tested first. *)
Theorem pypy_classifiers_errors (env : PyPI) (tr : list event) :
  (∀ e, urlopen env = inl e → pypy_classifiers env tr = (inl e, tr))
  ∧ (∀ resp, urlopen env = inr resp → status resp = 200%Z →
             utf8_decode (data resp) = None →
             pypy_classifiers env tr = (inl UnicodeDecodeError, tr)).
Proof.
  split.
  - intros e He. unfold pypy_classifiers. rewrite He. run. reflexivity.
  - intros resp Hopen Hstatus Hdecode. unfold pypy_classifiers.
    rewrite Hopen. run. rewrite Hstatus.
    rewrite bool_decide_eq_false_2 by (intros Hne; apply Hne; reflexivity).
    run. rewrite Hdecode. cbn [from_option]. run. reflexivity.
Qed.

(** ** [all_pypy_projects] *)

Section MoreAggregation.
Context {U : Unicode} (env : PyPI).

(** A record of the log. *)
Definition is_log (e : event) : Prop :=
  match e with
  | LogInfo _ | LogWarning _ => True
  | _ => False
  end.

(** One turn of the loop emits information records only. *)
Lemma update_with_info (projects : gset str) (classifier : str)
    (tr : list event) :
  ∃ evs, (update_with env projects classifier tr).2 = tr ++ evs
         ∧ Forall (λ e, ∃ m, e = LogInfo m) evs.
Proof.
  unfold update_with, bind.
  rewrite projects_matching_classifier_body, pypi_client_run.
  destruct (browse env [classifier]) as [e|rows];
    [destruct (is_ExpatError e)|];
    (destruct (close env) as [c|]; [destruct (is_ExpatError_or_Fault c)|]);
    cbn [snd fst]; unfold ret; cbn [snd];
    rewrite <- ?app_assoc; eexists; (split; [reflexivity|]);
    repeat constructor; eexists; reflexivity.
Qed.

Lemma fetch_info (cs : list str) (projects : gset str) (tr : list event) :
  ∃ evs, (for_each cs projects (update_with env) tr).2 = tr ++ evs
         ∧ Forall (λ e, ∃ m, e = LogInfo m) evs.
Proof.
  revert projects tr. induction cs as [|c cs IH]; intros projects tr.
  - exists []. split; [cbn; rewrite app_nil_r; reflexivity|constructor].
  - cbn [for_each]. unfold bind at 1.
    destruct (update_with_info projects c tr) as (evs & Htr & Hevs).
    destruct (update_with env projects c tr) as [[e|projects'] tr1];
      cbn [snd] in Htr; subst tr1.
    + exists evs. split; [reflexivity|exact Hevs].
    + destruct (IH projects' (tr ++ evs)) as (evs' & -> & Hevs').
      exists (evs ++ evs'). split; [rewrite app_assoc; reflexivity|].
      apply Forall_app. split; assumption.
Qed.

(** The executor's block is left on every path: whatever the index
    answers and whether [all_pypy_projects] returns or raises, its events
    are the creation of the executor, records of the log, the shutdown, and
    again records of the log; the executor is shut down once. *)
Theorem all_pypy_projects_shutdown (manual_overrides : option overrides_arg) :
  ∃ inside after,
    (all_pypy_projects env manual_overrides []).2
    = ExecutorCreated (CPU_COUNT env) :: inside ++ ExecutorShutdown :: after
    ∧ Forall is_log inside ∧ Forall is_log after.
Proof.
  rewrite all_pypy_projects_run.
  destruct (classifiers_of env) as [e|cs].
  { exists [], []. repeat split; constructor. }
  destruct (fetch_info cs ∅ ([] ++ [ExecutorCreated (CPU_COUNT env)]))
    as (evs & Htr & Hevs).
  assert (Hlogs : Forall is_log evs).
  { eapply Forall_impl; [exact Hevs|]. intros e [m ->]. exact I. }
  destruct (for_each cs ∅ (update_with env) _) as [[e|fetched] tr1];
    cbn [snd] in Htr; subst tr1; cbv zeta; cbn [snd app].
  - exists evs, []. rewrite <- ?app_assoc. cbn [app].
    repeat split; [exact Hlogs|constructor].
  - eexists evs, _. rewrite <- ?app_assoc. cbn [app].
    split; [reflexivity|]. split; [exact Hlogs|].
    unfold override_records. constructor; [exact I|].
    apply Forall_app. split.
    + apply Forall_fmap, Forall_forall. intros x _. exact I.
    + unfold stale_warning. case_bool_decide; repeat constructor.
Qed.

(** With lowercased overrides the result is lowercased: when every name of
    the overrides in use is its own lowering, so is every member of the set
    [all_pypy_projects] returns. *)
Theorem all_pypy_projects_lowercased (manual_overrides : option overrides_arg)
    (tr tr' : list event) (projects : gset str) :
  all_pypy_projects env manual_overrides tr = (inr projects, tr') →
  (∀ o, o ∈ names (overrides_in_use env manual_overrides) → str_lower o = o) →
  ∀ x, x ∈ projects → str_lower x = x.
Proof.
  rewrite all_pypy_projects_run.
  destruct (classifiers_of env) as [e|cs]; [discriminate|].
  destruct (for_each cs ∅ (update_with env) _) as [[e|fetched] tr1] eqn:Hloop;
    [discriminate|].
  cbv zeta. intros [= <- _] Hov x Hx.
  apply elem_of_union in Hx as [Hx|Hx].
  - apply (fetch_returns env _ _ _ _ _ Hloop x) in Hx as [Hx|(c & _ & Hx)].
    + apply elem_of_empty in Hx. contradiction.
    + destruct Hx as (rows & name & version & _ & _ & ->). apply str_lower_idem.
  - apply Hov. apply elem_of_list_to_set in Hx. exact Hx.
Qed.


(** The warning on stale overrides: when [all_pypy_projects] returns, a
    warning is among its events exactly for the set of the names of the
    overrides that a browse returned as well, and only when that set is not
    empty. *)
Theorem all_pypy_projects_stale (manual_overrides : option overrides_arg)
    (tr' : list event) (projects : gset str) :
  all_pypy_projects env manual_overrides [] = (inr projects, tr') →
  ∃ cs, classifiers_of env = inr cs
        ∧ ∀ stale,
            LogWarning (StaleOverrides stale) ∈ tr'
            ↔ stale ≠ ∅
              ∧ ∀ x, x ∈ stale
                     ↔ x ∈ names (overrides_in_use env manual_overrides)
                       ∧ ∃ c, c ∈ cs ∧ browsed env c x.
Proof.
  rewrite all_pypy_projects_run.
  destruct (classifiers_of env) as [e|cs]; [discriminate|].
  destruct (fetch_info cs ∅ ([] ++ [ExecutorCreated (CPU_COUNT env)]))
    as (evs & Htr & Hevs).
  destruct (for_each cs ∅ (update_with env) _) as [[e|fetched] tr1] eqn:Hloop;
    [discriminate|].
  cbn [snd] in Htr. subst tr1. cbv zeta. intros Hrun.
  apply (f_equal snd) in Hrun. cbn [snd] in Hrun. subst tr'.
  exists cs. split; [reflexivity|]. intros stale.
  set (ov := overrides_in_use env manual_overrides).
  assert (Hfetched : ∀ x, x ∈ fetched ∩ list_to_set (names ov)
                          ↔ x ∈ names ov ∧ ∃ c, c ∈ cs ∧ browsed env c x).
  { intros x. rewrite elem_of_intersection, elem_of_list_to_set.
    rewrite (fetch_returns env _ _ _ _ _ Hloop x). split.
    - intros [[Hx|Hx] Hn]; [apply elem_of_empty in Hx; contradiction|auto].
    - intros [Hn Hx]. auto. }
  assert (Hbefore : LogWarning (StaleOverrides stale)
                    ∉ (([] ++ [ExecutorCreated (CPU_COUNT env)]) ++ evs)
                      ++ [ExecutorShutdown] ++ override_records ov).
  { unfold override_records.
    rewrite !elem_of_app, !elem_of_cons, list_elem_of_fmap.
    rewrite Forall_forall in Hevs.
    intros Hin.
    repeat match type of Hin with _ ∨ _ => destruct Hin as [Hin|Hin] end;
      try discriminate;
      try (apply elem_of_nil in Hin; contradiction).
    - destruct (Hevs _ Hin) as [m Hm]. discriminate.
    - destruct Hin as (x & Hx & _). discriminate. }
  rewrite !app_assoc, elem_of_app. rewrite <- !app_assoc.
  unfold stale_warning. split.
  - intros [Hin|Hin]; [rewrite <- !app_assoc in Hbefore; contradiction|].
    case_bool_decide as Hne; [|apply elem_of_nil in Hin; contradiction].
    apply list_elem_of_singleton in Hin. injection Hin as ->.
    split; [exact Hne|exact Hfetched].
  - intros [Hne Hstale].
    assert (Heq : stale = fetched ∩ list_to_set (names ov)).
    { apply set_eq. intros x. rewrite Hstale, Hfetched. reflexivity. }
    subst stale. right.
    rewrite bool_decide_eq_true_2 by exact Hne.
    apply list_elem_of_singleton. reflexivity.
Qed.

End MoreAggregation.

(** ** [projects_matching_classifier] and the order of the browses *)

(** The classifiers whose fetch is recorded in the log, in the order of the
    records. *)
Definition fetched_classifiers (tr : list event) : list str :=
  omap (λ e, match e with
             | LogInfo (FetchingProjectList c) => Some c
             | _ => None
             end) tr.

(** An index whose second PyPy classifier cannot be browsed: the call
    raises a [Fault]. *)
Definition faulty_index : PyPI := {|
  cpu_count := None;
  urlopen := inr {| status := 200; data := classifier_listing |};
  browse := λ classifiers,
    if bool_decide (classifiers = [base_classifier])
    then inr [(lit "Foo", lit "1.0")]
    else inl Fault;
  package_releases := λ _, inl Fault;
  release_urls := λ _ _, inl Fault;
  close := None;
  overrides_json := ∅
|}.

Section Browses.
Context {U : Unicode} (env : PyPI).

(** The outcomes of [projects_matching_classifier] when the close passes:
    the lowercased names of the rows, after one record; nothing, after a
    second record, when the browse raises [ExpatError]; and any other
    error of the browse itself, which is not caught. *)
Theorem projects_matching_classifier_outcomes (classifier : str)
    (tr : list event) :
  close_passes env →
  (∀ rows, browse env [classifier] = inr rows →
     ∃ names,
       projects_matching_classifier env classifier tr
       = (inr (PyFrozenSet names),
          tr ++ [LogInfo (FetchingProjectList classifier)])
       ∧ ∀ x, x ∈ names ↔ ∃ name version, (name, version) ∈ rows
                                           ∧ x = str_lower name)
  ∧ (browse env [classifier] = inl ExpatError →
     projects_matching_classifier env classifier tr
     = (inr (PyList []),
        tr ++ [LogInfo (FetchingProjectList classifier);
               LogInfo (Text (lit "PyPI didn't return any results"))]))
  ∧ (∀ e, browse env [classifier] = inl e → e ≠ ExpatError →
     projects_matching_classifier env classifier tr
     = (inl e, tr ++ [LogInfo (FetchingProjectList classifier)])).
Proof.
  intros Hclose.
  rewrite projects_matching_classifier_body, pypi_client_passes by exact Hclose.
  split; [|split].
  - intros rows ->. eexists. split; [reflexivity|].
    intros x. rewrite elem_of_list_to_set, list_elem_of_fmap. split.
    + intros ([name version] & -> & Hin). eauto.
    + intros (name & version & Hin & ->). exists (name, version). eauto.
  - intros ->. cbn [is_ExpatError]. rewrite <- app_assoc. reflexivity.
  - intros e -> He. destruct e; try reflexivity. contradiction.
Qed.

(** Every turn of the loop records its classifier once, whatever its
    outcome. *)
Lemma update_with_fetched (projects : gset str) (classifier : str)
    (tr : list event) :
  fetched_classifiers (update_with env projects classifier tr).2
  = fetched_classifiers tr ++ [classifier].
Proof.
  unfold update_with, bind, fetched_classifiers.
  rewrite projects_matching_classifier_body, pypi_client_run.
  destruct (browse env [classifier]) as [e|rows];
    [destruct (is_ExpatError e)|];
    (destruct (close env) as [c|]; [destruct (is_ExpatError_or_Fault c)|]);
    cbn [snd fst]; unfold ret; cbn [snd];
    rewrite !omap_app; cbn [omap list_omap]; rewrite ?app_nil_r; reflexivity.
Qed.

Lemma fetch_returns_fetched (cs : list str) (projects : gset str)
    (tr tr' : list event) (fetched : gset str) :
  for_each cs projects (update_with env) tr = (inr fetched, tr') →
  fetched_classifiers tr' = fetched_classifiers tr ++ cs.
Proof.
  revert projects tr. induction cs as [|c cs IH]; intros projects tr.
  - cbn [for_each]. unfold ret. intros Hrun.
    apply (f_equal snd) in Hrun. cbn [snd] in Hrun. subst tr'.
    rewrite app_nil_r. reflexivity.
  - cbn [for_each]. unfold bind at 1.
    pose proof (update_with_fetched projects c tr) as Hturn.
    destruct (update_with env projects c tr) as [[e|projects'] tr1];
      [discriminate|].
    cbn [snd] in Hturn. intros Hrest. rewrite (IH _ _ Hrest), Hturn.
    rewrite <- app_assoc. reflexivity.
Qed.


(** Each classifier is browsed once, in the order of the listing: when
    [all_pypy_projects] returns, the fetch records of its log are those of
    the classifiers [pypy_classifiers] yields, in that order. *)
Theorem all_pypy_projects_fetch_order (manual_overrides : option overrides_arg)
    (tr' : list event) (projects : gset str) :
  all_pypy_projects env manual_overrides [] = (inr projects, tr') →
  ∃ cs, classifiers_of env = inr cs ∧ fetched_classifiers tr' = cs.
Proof.
  rewrite all_pypy_projects_run.
  destruct (classifiers_of env) as [e|cs]; [discriminate|].
  destruct (for_each cs ∅ (update_with env) _) as [[e|fetched] tr1] eqn:Hloop;
    [discriminate|].
  apply fetch_returns_fetched in Hloop.
  cbv zeta. intros Hrun. apply (f_equal snd) in Hrun. cbn [snd] in Hrun.
  subst tr'. exists cs. split; [reflexivity|].
  unfold fetched_classifiers in *. rewrite !omap_app, Hloop.
  assert (Hrecords : ∀ ov l,
    omap (λ e, match e with
               | LogInfo (FetchingProjectList c) => Some c
               | _ => None
               end) (override_record ov <$> l) = []).
  { intros ov l. induction l as [|x l IH]; [reflexivity|exact IH]. }
  unfold override_records, stale_warning.
  cbn [omap list_omap app]. rewrite Hrecords.
  case_bool_decide; cbn [omap list_omap app]; rewrite ?app_nil_r; reflexivity.
Qed.


End Browses.

(** ** The records of the overrides *)






(** ** [all_projects] *)

(** The index with the answer of [client.list_packages()]. *)
Record PackageIndex : Type := {
  pypi : PyPI;
  list_packages : exn + list str
}.

(** [all_projects] *)
Definition all_projects {U : Unicode} (index : PackageIndex) : M (gset str) :=
  pypi_client (pypi index)
    (emit (LogInfo (Text (lit "Fetching all project names from PyPI"))) ;;;
     packages <- call (list_packages index) ;;
     ret (list_to_set (str_lower <$> packages))).

(** [all_projects], when the close passes: after one record it returns the
    lowercased names of the packages, each its own lowering; an error of
    [list_packages], [ExpatError] too, is not caught. *)
Theorem all_projects_outcomes {U : Unicode} (index : PackageIndex)
    (tr : list event) :
  close_passes (pypi index) →
  (∀ packages, list_packages index = inr packages →
     ∃ projects,
       all_projects index tr
       = (inr projects,
          tr ++ [LogInfo (Text (lit "Fetching all project names from PyPI"))])
       ∧ (∀ x, x ∈ projects ↔ ∃ name, name ∈ packages ∧ x = str_lower name)
       ∧ ∀ x, x ∈ projects → str_lower x = x)
  ∧ (∀ e, list_packages index = inl e →
       all_projects index tr
       = (inl e,
          tr ++ [LogInfo (Text (lit "Fetching all project names from PyPI"))])).
Proof.
  intros Hclose. unfold all_projects.
  rewrite pypi_client_passes by exact Hclose. split.
  - intros packages ->. run. eexists. split; [reflexivity|].
    assert (Hmem : ∀ x, x ∈ (list_to_set (str_lower <$> packages) : gset str)
                        ↔ ∃ name, name ∈ packages ∧ x = str_lower name).
    { intros x. rewrite elem_of_list_to_set, list_elem_of_fmap. split.
      - intros (name & -> & Hin). eauto.
      - intros (name & Hin & ->). eauto. }
    split; [exact Hmem|].
    intros x Hx. apply Hmem in Hx as (name & _ & ->). apply str_lower_idem.
  - intros e ->. run. reflexivity.
Qed.

(** ** The classifiers are single lines *)

Lemma splitlines_from_no_break (n : nat) (s cur line : str) :
  (length s ≤ n)%nat →
  Forall (λ c, is_linebreak c = false) cur →
  line ∈ splitlines_from cur s →
  Forall (λ c, is_linebreak c = false) line.
Proof.
  revert s cur. induction n as [|n IH]; intros s cur Hlen Hcur Hline.
  - destruct s as [|c s]; [|cbn in Hlen; lia].
    cbn [splitlines_from] in Hline. destruct cur as [|a cur].
    + apply elem_of_nil in Hline. contradiction.
    + apply list_elem_of_singleton in Hline as ->.
      apply Forall_reverse, Hcur.
  - destruct s as [|c s].
    + cbn [splitlines_from] in Hline. destruct cur as [|a cur].
      * apply elem_of_nil in Hline. contradiction.
      * apply list_elem_of_singleton in Hline as ->.
        apply Forall_reverse, Hcur.
    + cbn [length] in Hlen. cbn [splitlines_from] in Hline.
      destruct (is_linebreak c) eqn:Hc.
      * apply elem_of_cons in Hline as [->|Hline];
          [apply Forall_reverse, Hcur|].
        destruct s as [|d s];
          [apply (IH [] []); [cbn; lia|constructor|exact Hline]|].
        cbn [length] in Hlen.
        destruct ((c =? 13) && (d =? 10)).
        -- apply (IH s []); [lia|constructor|exact Hline].
        -- apply (IH (d :: s) []); [cbn [length]; lia|constructor|exact Hline].
      * apply (IH s (c :: cur)); [lia| |exact Hline].
        constructor; [exact Hc|exact Hcur].
Qed.

(** Every classifier [pypy_classifiers] yields, and so every classifier
    that is browsed, is one line of the listing: it starts with the PyPy
    prefix and holds no line boundary. *)
Theorem pypy_classifiers_single_lines (env : PyPI) (tr tr' : list event)
    (cs : list str) :
  pypy_classifiers env tr = (inr cs, tr') →
  ∀ c, c ∈ cs →
       base_classifier `prefix_of` c
       ∧ Forall (λ ch, is_linebreak ch = false) c.
Proof.
  unfold pypy_classifiers.
  destruct (urlopen env) as [e|resp]; run; [discriminate|].
  destruct (bool_decide (status resp ≠ 200%Z)); run; [discriminate|].
  destruct (utf8_decode (data resp)) as [text|]; cbn [from_option]; run;
    [|discriminate].
  unfold ret. intros Hrun c Hc.
  assert (Hcs : cs = filter (λ classifier,
                               startswith classifier base_classifier = true)
                       (splitlines text)) by congruence.
  subst cs. apply list_elem_of_filter in Hc as [Hprefix Hline].
  split; [apply startswith_prefix, Hprefix|].
  eapply (splitlines_from_no_break (length text) text []);
    [reflexivity|constructor|exact Hline].
Qed.

(** ** The further properties on the example indexes *)

(** The example index with a [Fault] for the artifacts of every release but
    the last of ["six"]. *)
Definition early_faults_index : PyPI := {|
  cpu_count := Some 4%nat;
  urlopen := inr {| status := 200; data := classifier_listing |};
  browse := browse (example_index 200 None);
  package_releases := package_releases (example_index 200 None);
  release_urls := λ name version,
    if bool_decide (version = lit "1.16.0") then inr six_downloads
    else inl Fault;
  close := None;
  overrides_json := ∅
|}.

(** An index with the packages [Django] and [six]. *)
Definition example_packages : PackageIndex := {|
  pypi := example_index 200 (Some ExpatError);
  list_packages := inr [lit "Django"; lit "six"]
|}.

Lemma example_index_returns (manual_overrides : option overrides_arg) :
  ∃ projects tr',
    all_pypy_projects (U:=latin) (example_index 200 None) manual_overrides []
    = (inr projects, tr').
Proof.
  destruct (all_pypy_projects_overrides_kept (U:=latin) (example_index 200 None)
              manual_overrides [] _ (example_index_classifiers None)
              (example_index_answers 200 None) (or_introl eq_refl))
    as (projects & tr' & Hrun & _).
  eauto.
Qed.

Lemma just_name_normal_form_witness :
  lit "foo" ≠ [] ∧ @str_lower latin (lit "foo") = lit "foo".
Proof.
  apply (just_name_normal_form (U:=latin) (lit "Foo>=1.2.3") (lit "foo")).
  reflexivity.
Defined.

Lemma just_name_ignores_rest_witness :
  just_name (U:=latin) (lit "Django" ++ lit ">=1.4")
  = just_name (U:=latin) (lit "Django" ++ lit "[bcrypt]").
Proof.
  apply (just_name_ignores_rest (U:=latin)).
  - repeat constructor.
  - intros c r [= <- _] [Hc|[Hc|[Hc|Hc]]]; discriminate.
  - intros c r [= <- _] [Hc|[Hc|[Hc|Hc]]]; discriminate.
Defined.

Lemma is_pure_python_latest_only_witness :
  is_pure_python (example_index 200 None) (lit "six") []
  = is_pure_python early_faults_index (lit "six") [].
Proof.
  apply is_pure_python_latest_only; [reflexivity| |reflexivity].
  intros releases latest Hreleases Hlast.
  assert (Hr : releases = [lit "1.0"; lit "1.16.0"]).
  { change (inr [lit "1.0"; lit "1.16.0"] = @inr exn _ releases) in Hreleases.
    congruence. }
  subst releases.
  assert (Hl : latest = lit "1.16.0").
  { change (Some (lit "1.16.0") = Some latest) in Hlast. congruence. }
  subst latest. reflexivity.
Defined.


Lemma all_pypy_projects_lowercased_witness :
  ∃ projects tr',
    all_pypy_projects (U:=latin) (example_index 200 None) None []
    = (inr projects, tr')
    ∧ ∀ x, x ∈ projects → @str_lower latin x = x.
Proof.
  destruct (example_index_returns None) as (projects & tr' & Hrun).
  exists projects, tr'. split; [exact Hrun|].
  apply (all_pypy_projects_lowercased (U:=latin) _ _ _ _ _ Hrun).
  intros o Ho. cbn [overrides_in_use names overrides_json example_index] in Ho.
  rewrite elem_of_elements, dom_singleton_L in Ho.
  apply elem_of_singleton in Ho as ->. reflexivity.
Defined.

Lemma all_pypy_projects_stale_witness :
  ∃ projects tr',
    all_pypy_projects (U:=latin) (example_index 200 None)
      (Some (OvSet {[ lit "foo" ]})) [] = (inr projects, tr')
    ∧ ∃ cs, classifiers_of (example_index 200 None) = inr cs
            ∧ ∀ stale,
                LogWarning (StaleOverrides stale) ∈ tr'
                ↔ stale ≠ ∅
                  ∧ ∀ x, x ∈ stale
                         ↔ x ∈ elements ({[ lit "foo" ]} : gset str)
                           ∧ ∃ c, c ∈ cs
                                  ∧ browsed (U:=latin) (example_index 200 None) c x.
Proof.
  destruct (example_index_returns (Some (OvSet {[ lit "foo" ]})))
    as (projects & tr' & Hrun).
  exists projects, tr'. split; [exact Hrun|].
  exact (all_pypy_projects_stale (U:=latin) _ _ _ _ Hrun).
Defined.

Lemma projects_matching_classifier_outcomes_witness :
  projects_matching_classifier (U:=latin) faulty_index
    (base_classifier ++ lit "XYZ") []
  = (inl Fault, [LogInfo (FetchingProjectList (base_classifier ++ lit "XYZ"))]).
Proof.
  apply (projects_matching_classifier_outcomes (U:=latin) faulty_index
           (base_classifier ++ lit "XYZ") [] (or_introl eq_refl)).
  - reflexivity.
  - discriminate.
Defined.

Lemma all_pypy_projects_fetch_order_witness :
  ∃ projects tr',
    all_pypy_projects (U:=latin) (example_index 200 None) None []
    = (inr projects, tr')
    ∧ ∃ cs, classifiers_of (example_index 200 None) = inr cs
            ∧ fetched_classifiers tr' = cs.
Proof.
  destruct (example_index_returns None) as (projects & tr' & Hrun).
  exists projects, tr'. split; [exact Hrun|].
  exact (all_pypy_projects_fetch_order (U:=latin) _ _ _ _ Hrun).
Defined.



Lemma all_projects_outcomes_witness :
  ∃ projects,
    all_projects (U:=latin) example_packages []
    = (inr projects,
       [LogInfo (Text (lit "Fetching all project names from PyPI"))])
    ∧ (∀ x, x ∈ projects
            ↔ ∃ name, name ∈ [lit "Django"; lit "six"]
                      ∧ x = @str_lower latin name)
    ∧ ∀ x, x ∈ projects → @str_lower latin x = x.
Proof.
  apply (proj1 (all_projects_outcomes (U:=latin) example_packages []
                  (or_intror (or_introl eq_refl)))).
  reflexivity.
Defined.

Lemma pypy_classifiers_single_lines_witness :
  base_classifier `prefix_of` (base_classifier ++ lit "XYZ")
  ∧ Forall (λ ch, is_linebreak ch = false) (base_classifier ++ lit "XYZ").
Proof.
  apply (pypy_classifiers_single_lines (example_index 200 None) [] []
           [base_classifier; base_classifier ++ lit "XYZ"] eq_refl).
  apply elem_of_cons. right. apply elem_of_cons. left. reflexivity.
Defined.
